(** * Dependency checker: version model, constraint engine, scope enumerator

    A shallow embedding of [plugins/utils/scripts/dependency-checker.py].

    Conventions of the model.
    - A Python [str] is a [string]; its characters are the code points
      below 256.  On that range [\d] is [0-9] and the characters removed by
      [str.strip()] are 9-13, 28-32, 133 and 160.
    - A Python [int] is a [Z].
    - A Python [dict] is an association list in insertion order whose keys
      are pairwise distinct ([dict]).
    - Code that may raise runs in the error monad [exn]; the only raising
      operation reachable from the modelled functions is [int(...)].
    - The file system and the subprocess layer are parameters of the
      checker ([World]). *)

From Stdlib Require Import Bool Arith ZArith List Ascii String Lia.
From Stdlib Require Import DecimalString.
From Stdlib Require DecimalPos.
Import ListNotations.

Local Open Scope string_scope.
Local Open Scope Z_scope.

(** ** The error monad *)

Inductive exception := ValueError.

Inductive exn (A : Type) : Type :=
| Ok (a : A)
| Raise (e : exception).
Arguments Ok {A} a.
Arguments Raise {A} e.

Definition bind {A B} (m : exn A) (f : A -> exn B) : exn B :=
  match m with
  | Ok a => f a
  | Raise e => Raise e
  end.

Notation "x <- m ;; f" := (bind m (fun x => f))
  (at level 61, m at next level, right associativity).

Fixpoint mapM {A B} (f : A -> exn B) (l : list A) : exn (list B) :=
  match l with
  | [] => Ok []
  | a :: l' => b <- f a ;; bs <- mapM f l' ;; Ok (b :: bs)
  end.

(** ** Python strings *)

Module Str.

Definition code (c : ascii) : N := N_of_ascii c.

Definition between (lo hi : N) (c : ascii) : bool :=
  (N.leb lo (code c) && N.leb (code c) hi)%bool.

(** [str.isspace] on one character. *)
Definition is_space (c : ascii) : bool :=
  (between 9 13 c || between 28 32 c
   || N.eqb (code c) 133 || N.eqb (code c) 160)%bool.

Definition is_digit (c : ascii) : bool := between 48 57 c.
Definition is_lower (c : ascii) : bool := between 97 122 c.
Definition is_upper (c : ascii) : bool := between 65 90 c.
Definition is_char (a c : ascii) : bool := Ascii.eqb a c.

(** Truth value of a string: [bool(s)]. *)
Definition truthy (s : string) : bool :=
  match s with
  | EmptyString => false
  | String _ _ => true
  end.

(** [s.lstrip(chars)] with the set of characters given as a predicate. *)
Fixpoint lstrip_by (p : ascii -> bool) (s : string) : string :=
  match s with
  | EmptyString => EmptyString
  | String c s' => if p c then lstrip_by p s' else s
  end.

(** [s.rstrip(chars)]. *)
Fixpoint rstrip_by (p : ascii -> bool) (s : string) : string :=
  match s with
  | EmptyString => EmptyString
  | String c s' =>
      let r := rstrip_by p s' in
      if (p c && negb (truthy r))%bool then EmptyString else String c r
  end.

(** [s.strip()]. *)
Definition strip (s : string) : string :=
  lstrip_by is_space (rstrip_by is_space s).

(** [s.lstrip("v")]. *)
Definition lstrip_v (s : string) : string := lstrip_by (is_char "v") s.

(** [s.startswith(p)]. *)
Definition startswith (s p : string) : bool := String.prefix p s.

(** [s[n:]]. *)
Fixpoint drop (n : nat) (s : string) : string :=
  match n, s with
  | O, _ => s
  | S n', String _ s' => drop n' s'
  | S _, EmptyString => EmptyString
  end.

(** [c in s] for a one-character needle. *)
Fixpoint contains (c : ascii) (s : string) : bool :=
  match s with
  | EmptyString => false
  | String a s' => (Ascii.eqb a c || contains c s')%bool
  end.

(** [s.rsplit(sep, 1)] for a one-character separator: the string is cut at
    the last occurrence of [sep]; without one the list is [[s]]. *)
Fixpoint rsplit1 (sep : ascii) (s : string) : list string :=
  match s with
  | EmptyString => [EmptyString]
  | String a s' =>
      match rsplit1 sep s' with
      | [h; t] => [String a h; t]
      | _ => if Ascii.eqb a sep then [EmptyString; s'] else [s]
      end
  end.

(** [a < b] on strings: lexicographic on code points. *)
Fixpoint ltb (a b : string) : bool :=
  match a, b with
  | _, EmptyString => false
  | EmptyString, String _ _ => true
  | String x a', String y b' =>
      if N.ltb (code x) (code y) then true
      else if N.ltb (code y) (code x) then false
      else ltb a' b'
  end.

(** [str(n)] for an integer. *)
Definition of_int (n : Z) : string := NilZero.string_of_int (Z.to_int n).

(** [sep.join(parts)] *)
Fixpoint join (sep : string) (parts : list string) : string :=
  match parts with
  | [] => EmptyString
  | s :: rest =>
      match rest with
      | [] => s
      | _ :: _ => s ++ sep ++ join sep rest
      end
  end.

End Str.

(** ** Regular expressions

    The fragment of Python's [re] syntax the source's patterns use, with
    the matcher's backtracking order: quantifiers are greedy, an optional
    part is tried before it is skipped, the first match found wins. *)

Module Re.

Inductive regex :=
| Bos                               (* ^ *)
| Eos                               (* $ *)
| Cls (p : ascii -> bool)           (* one character of a class *)
| Plus (p : ascii -> bool)          (* class+ *)
| Star (p : ascii -> bool)          (* class* *)
| Cat (r1 r2 : regex)
| Opt (r : regex)                   (* (?:r)? *)
| Grp (n : nat) (r : regex).        (* capture group number n *)

(** Captured groups, most recent binding first. *)
Definition captures := list (nat * string).

Fixpoint group (m : captures) (n : nat) : option string :=
  match m with
  | [] => None
  | (k, s) :: m' => if Nat.eqb k n then Some s else group m' n
  end.

Definition cont := nat -> string -> captures -> option captures.

(** The part of [s] consumed when the remaining input is [s']. *)
Definition consumed (s s' : string) : string :=
  String.substring 0 (String.length s - String.length s') s.

Fixpoint plus_from (p : ascii -> bool) (i : nat) (s : string)
    (c : captures) (k : cont) : option captures :=
  match s with
  | EmptyString => None
  | String a s' =>
      if p a then
        match plus_from p (S i) s' c k with
        | Some r => Some r
        | None => k (S i) s' c
        end
      else None
  end.

Definition star_from (p : ascii -> bool) (i : nat) (s : string)
    (c : captures) (k : cont) : option captures :=
  match plus_from p i s c k with
  | Some r => Some r
  | None => k i s c
  end.

Definition newline : string := String (ascii_of_nat 10) EmptyString.

Fixpoint run (r : regex) (i : nat) (s : string) (c : captures) (k : cont)
    : option captures :=
  match r with
  | Bos => if Nat.eqb i 0 then k i s c else None
  | Eos =>
      if (String.eqb s EmptyString || String.eqb s newline)%bool
      then k i s c else None
  | Cls p =>
      match s with
      | String a s' => if p a then k (S i) s' c else None
      | EmptyString => None
      end
  | Plus p => plus_from p i s c k
  | Star p => star_from p i s c k
  | Cat r1 r2 => run r1 i s c (fun i' s' c' => run r2 i' s' c' k)
  | Opt r1 =>
      match run r1 i s c k with
      | Some m => Some m
      | None => k i s c
      end
  | Grp n r1 =>
      run r1 i s c (fun i' s' c' => k i' s' ((n, consumed s s') :: c'))
  end.

(** [re.match(r, s)]: a match anchored at the start of [s]. *)
Definition rmatch (r : regex) (s : string) : option captures :=
  run r 0 s [] (fun _ _ c => Some c).

(** Concatenation of a non-empty sequence of patterns. *)
Fixpoint seq (r : regex) (rs : list regex) : regex :=
  match rs with
  | [] => r
  | r' :: rs' => Cat r (seq r' rs')
  end.

(** [r{n}]. *)
Fixpoint rep (n : nat) (r : regex) : list regex :=
  match n with
  | O => []
  | S n' => r :: rep n' r
  end.

End Re.

(** ** Version model *)

Record Version := mkVersion {
  major : Z;
  minor : Z;
  patch : Z;
  prerelease : string;
  build : string
}.

(** [int(s)] on a string.  The model covers the non-empty strings of
    decimal digits, which is all the source passes; any other argument is
    reported as [ValueError].  The interpreter's optional limit on the
    length of such a string is not part of the model. *)
Fixpoint digits_value (acc : Z) (s : string) : exn Z :=
  match s with
  | EmptyString => Ok acc
  | String c s' =>
      if Str.is_digit c
      then digits_value (10 * acc + Z.of_N (Str.code c - 48)) s'
      else Raise ValueError
  end.

Definition int (s : string) : exn Z :=
  if Str.truthy s then digits_value 0 s else Raise ValueError.

(** [int(g or 0)] for a group that may not have taken part in the match. *)
Definition int_or_0 (g : option string) : exn Z :=
  match g with
  | Some s => if Str.truthy s then int s else Ok 0
  | None => Ok 0
  end.

(** [g or ""]. *)
Definition str_or_empty (g : option string) : string :=
  match g with
  | Some s => s
  | None => EmptyString
  end.

(** [[0-9a-f]] *)
Definition hex_digit (c : ascii) : bool :=
  (Str.is_digit c || Str.between 97 102 c)%bool.

(** [[a-zA-Z0-9.-]] *)
Definition ident_char (c : ascii) : bool :=
  (Str.is_lower c || Str.is_upper c || Str.is_digit c
   || Str.is_char "." c || Str.is_char "-" c)%bool.

(** [^[0-9a-f]{12}$] *)
Definition sha_pattern : Re.regex :=
  Re.seq Re.Bos (Re.rep 12 (Re.Cls hex_digit) ++ [Re.Eos]).

(** [^(\d+)(?:\.(\d+))?(?:\.(\d+))?(?:-([a-zA-Z0-9.-]+))?(?:\+([a-zA-Z0-9.-]+))?$] *)
Definition semver_pattern : Re.regex :=
  Re.seq Re.Bos
    [ Re.Grp 1 (Re.Plus Str.is_digit);
      Re.Opt (Re.Cat (Re.Cls (Str.is_char ".")) (Re.Grp 2 (Re.Plus Str.is_digit)));
      Re.Opt (Re.Cat (Re.Cls (Str.is_char ".")) (Re.Grp 3 (Re.Plus Str.is_digit)));
      Re.Opt (Re.Cat (Re.Cls (Str.is_char "-")) (Re.Grp 4 (Re.Plus ident_char)));
      Re.Opt (Re.Cat (Re.Cls (Str.is_char "+")) (Re.Grp 5 (Re.Plus ident_char)));
      Re.Eos ].

Module VersionM.

(** [Version.parse], after the emptiness test and the cleaning. *)
Definition parse_clean (version_str : string) : exn (option Version) :=
  match Re.rmatch sha_pattern version_str with
  | Some _ => Ok None
  | None =>
      match Re.rmatch semver_pattern version_str with
      | None => Ok None
      | Some m =>
          ma <- int (str_or_empty (Re.group m 1)) ;;
          mi <- int_or_0 (Re.group m 2) ;;
          pa <- int_or_0 (Re.group m 3) ;;
          Ok (Some (mkVersion ma mi pa
                      (str_or_empty (Re.group m 4))
                      (str_or_empty (Re.group m 5))))
      end
  end.

(** [Version.parse] *)
Definition parse (version_str : string) : exn (option Version) :=
  if negb (Str.truthy version_str) then Ok None
  else parse_clean (Str.lstrip_v (Str.strip version_str)).

(** [Version.__str__] *)
Definition to_str (v : Version) : string :=
  let result :=
    Str.of_int (major v) ++ "." ++ Str.of_int (minor v) ++ "."
    ++ Str.of_int (patch v) in
  let result :=
    if Str.truthy (prerelease v) then result ++ "-" ++ prerelease v
    else result in
  if Str.truthy (build v) then result ++ "+" ++ build v else result.

(** Tuple comparison [(a1,a2,a3) < (b1,b2,b3)]. *)
Definition triple_ltb (a b : Z * Z * Z) : bool :=
  let '(a1, a2, a3) := a in
  let '(b1, b2, b3) := b in
  if negb (a1 =? b1) then a1 <? b1
  else if negb (a2 =? b2) then a2 <? b2
  else a3 <? b3.

Definition triple_eqb (a b : Z * Z * Z) : bool :=
  let '(a1, a2, a3) := a in
  let '(b1, b2, b3) := b in
  ((a1 =? b1) && (a2 =? b2) && (a3 =? b3))%bool.

Definition triple (v : Version) : Z * Z * Z := (major v, minor v, patch v).

(** [Version.__lt__] *)
Definition lt (self other : Version) : bool :=
  if negb (triple_eqb (triple self) (triple other))
  then triple_ltb (triple self) (triple other)
  else if (Str.truthy (prerelease self)
           && negb (Str.truthy (prerelease other)))%bool then true
  else if (negb (Str.truthy (prerelease self))
           && Str.truthy (prerelease other))%bool then false
  else Str.ltb (prerelease self) (prerelease other).

(** [Version.__eq__] *)
Definition eq (self other : Version) : bool :=
  ((major self =? major other) && (minor self =? minor other)
   && (patch self =? patch other)
   && String.eqb (prerelease self) (prerelease other))%bool.

(** [Version.__le__] *)
Definition le (self other : Version) : bool :=
  (lt self other || eq self other)%bool.

(** [Version.__gt__] *)
Definition gt (self other : Version) : bool := negb (le self other).

(** [Version.__ge__] *)
Definition ge (self other : Version) : bool := negb (lt self other).

End VersionM.

(** ** Constraint engine *)

(** [parse_version_constraint] *)
Definition parse_version_constraint (constraint : string) : string * string :=
  let constraint := Str.strip constraint in
  if String.eqb constraint "*" then ("*", "")
  else
    let fix scan (ops : list string) : string * string :=
      match ops with
      | [] => ("=", constraint)
      | op :: ops' =>
          if Str.startswith constraint op
          then (op, Str.strip (Str.drop (String.length op) constraint))
          else scan ops'
      end in
    scan [">="; "<="; ">"; "<"; "^"; "~"; "="].

(** [version_satisfies] *)
Definition version_satisfies (installed_version constraint : string)
    : exn bool :=
  if String.eqb constraint "*" then Ok true
  else
    installed <- VersionM.parse installed_version ;;
    match installed with
    | None => Ok true
    | Some installed =>
        let '(operator, version_str) := parse_version_constraint constraint in
        if String.eqb operator "*" then Ok true
        else
          required <- VersionM.parse version_str ;;
          match required with
          | None => Ok true
          | Some required =>
              if String.eqb operator "=" then
                Ok (VersionM.eq installed required)
              else if String.eqb operator ">=" then
                Ok (VersionM.ge installed required)
              else if String.eqb operator "<=" then
                Ok (VersionM.le installed required)
              else if String.eqb operator ">" then
                Ok (VersionM.gt installed required)
              else if String.eqb operator "<" then
                Ok (VersionM.lt installed required)
              else if String.eqb operator "^" then
                if VersionM.lt installed required then Ok false
                else if negb (major required =? 0) then
                  Ok (major installed =? major required)
                else if negb (minor required =? 0) then
                  Ok ((major installed =? 0)
                      && (minor installed =? minor required))%bool
                else
                  Ok ((major installed =? 0) && (minor installed =? 0)
                      && (patch installed =? patch required))%bool
              else if String.eqb operator "~" then
                if VersionM.lt installed required then Ok false
                else
                  Ok ((major installed =? major required)
                      && (minor installed =? minor required))%bool
              else Ok true
          end
    end.

(** ** Dictionaries *)

Module Dict.

Fixpoint distinct (ks : list string) : bool :=
  match ks with
  | [] => true
  | k :: ks' => (negb (existsb (String.eqb k) ks') && distinct ks')%bool
  end.

(** A [dict] with string keys: the items in insertion order. *)
Record dict (V : Type) := mk {
  items : list (string * V);
  keys_distinct : distinct (map fst items) = true
}.
Arguments mk {V} items keys_distinct.
Arguments items {V} d.
Arguments keys_distinct {V} d.

Definition empty {V} : dict V := mk [] eq_refl.

Fixpoint lookup {V} (k : string) (l : list (string * V)) : option V :=
  match l with
  | [] => None
  | (k', v) :: l' => if String.eqb k' k then Some v else lookup k l'
  end.

(** [d.get(k)] *)
Definition get {V} (d : dict V) (k : string) : option V := lookup k (items d).

(** [d.get(k, default)] *)
Definition get_default {V} (d : dict V) (k : string) (default : V) : V :=
  match get d k with
  | Some v => v
  | None => default
  end.

(** [k in d] *)
Definition mem {V} (k : string) (d : dict V) : bool :=
  match get d k with
  | Some _ => true
  | None => false
  end.

Definition keys {V} (d : dict V) : list string := map fst (items d).

(** [bool(d)] *)
Definition truthy {V} (d : dict V) : bool :=
  match items d with
  | [] => false
  | _ :: _ => true
  end.

End Dict.

Abbreviation dict := Dict.dict.

(** ** Results *)

Record DependencyResult := mkDependencyResult {
  plugin : option string;
  command : option string;
  marketplace : option string;
  dependent : string;
  required_version : string;
  installed : bool;
  enabled : bool;
  installed_version : option string;
  valid : bool;
  help : string
}.

Inductive Scope := ScopeEnabled | ScopeInstalled | ScopeAll.

Record CheckResult := mkCheckResult {
  checked_scope : Scope;
  checked_plugin : option string;
  dependencies : list DependencyResult;
  optional_dependencies : list DependencyResult;
  system_dependencies : list DependencyResult;
  optional_system_dependencies : list DependencyResult
}.

(** ** The checker's state and its environment *)

(** A JSON object whose fields are strings: an install record, a
    marketplace entry. *)
Definition record := dict string.

(** The object read from [extends-plugin.json]: each field maps dependency
    names to constraint strings. *)
Definition manifest := dict (dict string).

Record DependencyChecker := mkDependencyChecker {
  installed_plugins : dict (list record);
  enabled_plugins : dict bool;
  known_marketplaces : dict record
}.

(** The outcome of [subprocess.run([command, flag], ...)]. *)
Record completed := mkCompleted {
  stdout : string;
  stderr : string;
  returncode : Z
}.

(** What the checker reads from outside: [pathlib] paths and the file
    system behind them, JSON files, [shutil.which] and [subprocess.run]
    ([None] when the call raises one of the caught exceptions). *)
Record World := mkWorld {
  path : Type;
  Path : string -> path;
  joinpath : path -> string -> path;
  path_name : path -> string;
  path_str : path -> string;
  path_exists : path -> bool;
  is_dir : path -> bool;
  iterdir : path -> list path;
  read_json : path -> option manifest;
  which : string -> bool;
  subprocess_run : string -> string -> option completed
}.

(** ** System probe *)

(** A letter, matched without regard to case ([re.IGNORECASE]). *)
Definition letter_ci (l : ascii) (c : ascii) : bool :=
  (Ascii.eqb c l
   || N.eqb (Str.code c + 32)%N (Str.code l))%bool.

(** The version pattern of [_check_system_command] under [re.IGNORECASE]:
    an optional [version] followed by any white space, an optional [v],
    then group 1, [\d+\.\d+(?:\.\d+)?(?:-[a-zA-Z0-9.-]+)?]. *)
Definition probe_pattern : Re.regex :=
  Re.seq
    (Re.Opt
       (Re.seq (Re.Cls (letter_ci "v"))
          [ Re.Cls (letter_ci "e"); Re.Cls (letter_ci "r");
            Re.Cls (letter_ci "s"); Re.Cls (letter_ci "i");
            Re.Cls (letter_ci "o"); Re.Cls (letter_ci "n");
            Re.Star Str.is_space ]))
    [ Re.Opt (Re.Cls (letter_ci "v"));
      Re.Grp 1
        (Re.seq (Re.Plus Str.is_digit)
           [ Re.Cls (Str.is_char ".");
             Re.Plus Str.is_digit;
             Re.Opt (Re.Cat (Re.Cls (Str.is_char ".")) (Re.Plus Str.is_digit));
             Re.Opt (Re.Cat (Re.Cls (Str.is_char "-")) (Re.Plus ident_char)) ]) ].

(** [re.search(r, s)]: the match at the leftmost position that has one. *)
Fixpoint search_from (r : Re.regex) (i : nat) (s : string)
    : option Re.captures :=
  match Re.run r i s [] (fun _ _ c => Some c) with
  | Some m => Some m
  | None =>
      match s with
      | EmptyString => None
      | String _ s' => search_from r (S i) s'
      end
  end.

Definition search (r : Re.regex) (s : string) : option Re.captures :=
  search_from r 0 s.

Section Checker.

Variable w : World.
Variable self : DependencyChecker.

(** [_get_plugin_key] *)
Definition _get_plugin_key (plugin_name marketplace : string) : string :=
  plugin_name ++ "@" ++ marketplace.

(** [_parse_plugin_key] *)
Definition _parse_plugin_key (plugin_key : string) : string * string :=
  if Str.contains "@" plugin_key then
    match Str.rsplit1 "@" plugin_key with
    | [p0; p1] => (p0, p1)
    | _ => (plugin_key, "")
    end
  else (plugin_key, "").

(** [some_opt and bool(s)] for an optional string. *)
Definition opt_truthy (m : option string) : bool :=
  match m with
  | Some s => Str.truthy s
  | None => false
  end.

(** The loop of [_get_installed_plugin_info] over the registry's items. *)
Fixpoint first_install_named (plugin_name : string)
    (l : list (string * list record)) : option record :=
  match l with
  | [] => None
  | (key, installs) :: l' =>
      let '(name, _) := _parse_plugin_key key in
      if String.eqb name plugin_name then
        match installs with
        | i0 :: _ => Some i0
        | [] => first_install_named plugin_name l'
        end
      else first_install_named plugin_name l'
  end.

(** The exact-key attempt of [_get_installed_plugin_info]. *)
Definition exact_install (plugin_name : string) (marketplace : option string)
    : option record :=
  match marketplace with
  | Some m =>
      if Str.truthy m then
        match Dict.get (installed_plugins self) (_get_plugin_key plugin_name m) with
        | Some (i0 :: _) => Some i0
        | _ => None
        end
      else None
  | None => None
  end.

(** [_get_installed_plugin_info] *)
Definition _get_installed_plugin_info (plugin_name : string)
    (marketplace : option string) : option record :=
  match exact_install plugin_name marketplace with
  | Some i0 => Some i0
  | None =>
      first_install_named plugin_name (Dict.items (installed_plugins self))
  end.

(** [_is_plugin_enabled] *)
Definition _is_plugin_enabled (plugin_name : string)
    (marketplace : option string) : bool :=
  if opt_truthy marketplace then
    Dict.get_default (enabled_plugins self)
      (_get_plugin_key plugin_name (str_or_empty marketplace)) false
  else
    existsb
      (fun '(key, en) =>
         let '(name, _) := _parse_plugin_key key in
         (String.eqb name plugin_name && en)%bool)
      (Dict.items (enabled_plugins self)).

(** [_load_extends_plugin] *)
Definition _load_extends_plugin (install_path : string) : option manifest :=
  let extends_path :=
    joinpath w (joinpath w (Path w install_path) ".claude-plugin")
      "extends-plugin.json" in
  if path_exists w extends_path then read_json w extends_path else None.

(** [result.stdout or result.stderr] *)
Definition str_or (a b : string) : string := if Str.truthy a then a else b.

(** The loop of [_check_system_command] over the version flags. *)
Fixpoint probe_flags (command_ : string) (flags : list string)
    : bool * option string :=
  match flags with
  | [] => (true, None)
  | flag :: flags' =>
      match subprocess_run w command_ flag with
      | None => probe_flags command_ flags'
      | Some result =>
          let output := str_or (stdout result) (stderr result) in
          if Str.truthy output then
            match search probe_pattern output with
            | Some m => (true, Some (str_or_empty (Re.group m 1)))
            | None =>
                if returncode result =? 0 then (true, None)
                else probe_flags command_ flags'
            end
          else probe_flags command_ flags'
      end
  end.

(** [_check_system_command] *)
Definition _check_system_command (command_ : string) : bool * option string :=
  if negb (which w command_) then (false, None)
  else probe_flags command_ ["--version"; "-version"; "-v"; "version"].

End Checker.

(** ** Dependency evaluator *)

(** How an optional string prints inside an f-string. *)
Definition fmt (o : option string) : string :=
  match o with
  | Some s => s
  | None => "None"
  end.

(** [s or None] *)
Definition or_none (s : string) : option string :=
  if Str.truthy s then Some s else None.

Section Evaluator.

Variable w : World.
Variable self : DependencyChecker.

(** [_check_plugin_dependency] *)
Definition _check_plugin_dependency (dep_plugin : string)
    (dep_marketplace : option string) (required_version_ dependent_ : string)
    : exn DependencyResult :=
  let info := _get_installed_plugin_info self dep_plugin dep_marketplace in
  let info_truthy :=
    match info with
    | Some i => Dict.truthy i
    | None => false
    end in
  if info_truthy then
    let installed_version_ :=
      match info with
      | Some i => Dict.get i "version"
      | None => None
      end in
    let enabled_ := _is_plugin_enabled self dep_plugin dep_marketplace in
    valid_ <-
      (if opt_truthy installed_version_
       then version_satisfies (str_or_empty installed_version_)
              required_version_
       else Ok true) ;;
    let help_ :=
      if negb valid_ then
        "Installed version " ++ fmt installed_version_
        ++ " does not satisfy required version " ++ required_version_
      else if negb enabled_ then
        "Plugin " ++ dep_plugin ++ " is installed but not enabled"
      else "" in
    Ok (mkDependencyResult (Some dep_plugin) None dep_marketplace dependent_
          required_version_ true enabled_ installed_version_ valid_ help_)
  else
    let help_ :=
      if opt_truthy dep_marketplace then
        "Plugin " ++ dep_plugin ++ " from " ++ fmt dep_marketplace
        ++ " is not installed. Install with: claude plugin install "
        ++ dep_plugin
      else
        "Plugin " ++ dep_plugin
        ++ " is not installed. Install with: claude plugin install "
        ++ dep_plugin in
    Ok (mkDependencyResult (Some dep_plugin) None dep_marketplace dependent_
          required_version_ false false None false help_).

(** [_check_system_dependency] *)
Definition _check_system_dependency (command_ required_version_ dependent_ : string)
    : exn DependencyResult :=
  let '(is_available, version) := _check_system_command w command_ in
  if is_available then
    if (opt_truthy version && Str.truthy required_version_
        && negb (String.eqb required_version_ "*"))%bool then
      valid_ <- version_satisfies (str_or_empty version) required_version_ ;;
      let help_ :=
        if negb valid_ then
          "Installed version " ++ fmt version
          ++ " does not satisfy required version " ++ required_version_
        else "" in
      Ok (mkDependencyResult None (Some command_) None dependent_
            required_version_ is_available is_available version valid_ help_)
    else
      Ok (mkDependencyResult None (Some command_) None dependent_
            required_version_ is_available is_available version true "")
  else
    Ok (mkDependencyResult None (Some command_) None dependent_
          required_version_ is_available is_available version false
          ("Command '" ++ command_ ++ "' is not installed or not in PATH. "
           ++ "Please install " ++ command_ ++ " to use this plugin.")).

(** ** Scope enumerator *)

Definition plugin_tuple : Type := string * string * string.

Definition tuple_key (t : plugin_tuple) : string := fst (fst t).

(** [info.get("installPath", "")] *)
Definition install_path_of (info : record) : string :=
  Dict.get_default info "installPath" "".

(** Single-plugin mode with a bare name: the loop with its [break]. *)
Fixpoint first_named_tuple (name : string) (l : list (string * list record))
    : list plugin_tuple :=
  match l with
  | [] => []
  | (key, installs) :: l' =>
      let '(pname, pmkt) := _parse_plugin_key key in
      if String.eqb pname name then
        match installs with
        | i0 :: _ => [(key, install_path_of i0, pmkt)]
        | [] => first_named_tuple name l'
        end
      else first_named_tuple name l'
  end.

(** The tuples of the enabled plugins that have an install record. *)
Definition enabled_tuples : list plugin_tuple :=
  flat_map
    (fun '(plugin_key, en) =>
       if en : bool then
         let '(name, marketplace_) := _parse_plugin_key plugin_key in
         match _get_installed_plugin_info self name (Some marketplace_) with
         | Some info =>
             if Dict.truthy info
             then [(plugin_key, install_path_of info, marketplace_)]
             else []
         | None => []
         end
       else [])
    (Dict.items (enabled_plugins self)).

(** The tuples of the installed registry's keys that have an install. *)
Definition installed_tuples : list plugin_tuple :=
  flat_map
    (fun '(plugin_key, installs) =>
       match installs with
       | i0 :: _ =>
           let '(_, marketplace_) := _parse_plugin_key plugin_key in
           [(plugin_key, install_path_of i0, marketplace_)]
       | [] => []
       end)
    (Dict.items (installed_plugins self)).

(** The keys collected in [installed_keys]. *)
Definition installed_keys : list string :=
  flat_map
    (fun '(plugin_key, installs) =>
       match installs with
       | _ :: _ => [plugin_key]
       | [] => []
       end)
    (Dict.items (installed_plugins self)).

(** The plugins found under one marketplace's [plugins/] directory. *)
Definition marketplace_tuples (mkt_name : string) (mkt_info : record)
    : list plugin_tuple :=
  let install_location := Dict.get_default mkt_info "installLocation" "" in
  if negb (Str.truthy install_location) then []
  else
    let mkt_path := Path w install_location in
    if negb (path_exists w mkt_path) then []
    else
      let plugins_dir := joinpath w mkt_path "plugins" in
      if path_exists w plugins_dir then
        flat_map
          (fun plugin_dir =>
             if is_dir w plugin_dir then
               let claude_plugin := joinpath w plugin_dir ".claude-plugin" in
               if path_exists w claude_plugin then
                 let plugin_key := path_name w plugin_dir ++ "@" ++ mkt_name in
                 if negb (existsb (String.eqb plugin_key) installed_keys)
                 then [(plugin_key, path_str w plugin_dir, mkt_name)]
                 else []
               else []
             else [])
          (iterdir w plugins_dir)
      else [].

(** [_get_plugins_to_check] *)
Definition _get_plugins_to_check (scope : Scope)
    (specific_plugin : option string) : list plugin_tuple :=
  if opt_truthy specific_plugin then
    let specific := str_or_empty specific_plugin in
    let '(name, marketplace_) := _parse_plugin_key specific in
    if Str.truthy marketplace_ then
      match _get_installed_plugin_info self name (Some marketplace_) with
      | Some info =>
          if Dict.truthy info
          then [(specific, install_path_of info, marketplace_)]
          else []
      | None => []
      end
    else first_named_tuple name (Dict.items (installed_plugins self))
  else
    match scope with
    | ScopeEnabled => enabled_tuples
    | ScopeInstalled => installed_tuples
    | ScopeAll =>
        installed_tuples
        ++ flat_map (fun '(mkt_name, mkt_info) =>
                       marketplace_tuples mkt_name mkt_info)
             (Dict.items (known_marketplaces self))
    end.

(** ** The run over the enumerated plugins *)

(** One of the four loops over a declaration map of [check_dependencies]. *)
Definition check_plugin_map (plugin_key : string) (deps : dict string)
    : exn (list DependencyResult) :=
  mapM
    (fun '(dep_name, dep_version) =>
       let '(dep_plugin, dep_mkt) := _parse_plugin_key dep_name in
       _check_plugin_dependency dep_plugin (or_none dep_mkt) dep_version
         plugin_key)
    (Dict.items deps).

Definition check_system_map (plugin_key : string) (deps : dict string)
    : exn (list DependencyResult) :=
  mapM
    (fun '(cmd, version) => _check_system_dependency cmd version plugin_key)
    (Dict.items deps).

(** The body of the loop of [check_dependencies] for one tuple. *)
Definition check_one (result : CheckResult) (t : plugin_tuple)
    : exn CheckResult :=
  let '(plugin_key, install_path, _) := t in
  if negb (Str.truthy install_path) then Ok result
  else
    match _load_extends_plugin w install_path with
    | None => Ok result
    | Some extends =>
        if negb (Dict.truthy extends) then Ok result
        else
          deps <- check_plugin_map plugin_key
                    (Dict.get_default extends "dependencies" Dict.empty) ;;
          opt <- check_plugin_map plugin_key
                   (Dict.get_default extends "optionalDependencies" Dict.empty) ;;
          sys <- check_system_map plugin_key
                   (Dict.get_default extends "systemDependencies" Dict.empty) ;;
          opt_sys <- check_system_map plugin_key
                       (Dict.get_default extends "optionalSystemDependencies"
                          Dict.empty) ;;
          Ok (mkCheckResult (checked_scope result) (checked_plugin result)
                (dependencies result ++ deps)
                (optional_dependencies result ++ opt)
                (system_dependencies result ++ sys)
                (optional_system_dependencies result ++ opt_sys))
    end.

Fixpoint check_all (result : CheckResult) (l : list plugin_tuple)
    : exn CheckResult :=
  match l with
  | [] => Ok result
  | t :: l' => r <- check_one result t ;; check_all r l'
  end.

(** [check_dependencies] *)
Definition check_dependencies (scope : Scope) (specific_plugin : option string)
    : exn CheckResult :=
  check_all (mkCheckResult scope specific_plugin [] [] [] [])
    (_get_plugins_to_check scope specific_plugin).

End Evaluator.

(** ** Exit status *)

(** [any(not d.valid for d in l)] *)
Definition any_invalid (l : list DependencyResult) : bool :=
  existsb (fun d => negb (valid d)) l.

(** The value [main] returns for a result. *)
Definition exit_status (result : CheckResult) : Z :=
  let has_invalid := any_invalid (dependencies result) in
  let has_invalid_sys := any_invalid (system_dependencies result) in
  if (has_invalid || has_invalid_sys)%bool then 1 else 0.

(** The parsed command line. *)
Record Args := mkArgs {
  arg_installed : bool;
  arg_all : bool;
  arg_plugin : option string;
  arg_pretty : bool
}.

(** [main], without the printing of the JSON document. *)
Definition main (w : World) (checker : DependencyChecker) (args : Args)
    : exn Z :=
  let '(scope, specific_plugin) :=
    if opt_truthy (arg_plugin args) then (ScopeEnabled, arg_plugin args)
    else if arg_installed args then (ScopeInstalled, None)
    else if arg_all args then (ScopeAll, None)
    else (ScopeEnabled, None) in
  result <- check_dependencies w checker scope specific_plugin ;;
  Ok (exit_status result).

(** * Vocabulary of the statements

    Propositions and sample data the theorems below are stated with. *)

Fixpoint all_chars (p : ascii -> bool) (s : string) : bool :=
  match s with
  | EmptyString => true
  | String c s' => (p c && all_chars p s')%bool
  end.

(** The declarative reading of a pattern: from input [s] with captures [c]
    it leaves input [s'] with captures [c']. *)
Fixpoint sem (r : Re.regex) (s : string) (c : Re.captures) (s' : string)
    (c' : Re.captures) : Prop :=
  match r with
  | Re.Bos => s' = s /\ c' = c
  | Re.Eos => s' = s /\ c' = c
  | Re.Cls p => exists a, s = String a s' /\ p a = true /\ c' = c
  | Re.Plus p =>
      exists x, Str.truthy x = true /\ all_chars p x = true
                /\ s = x ++ s' /\ c' = c
  | Re.Star p => exists x, all_chars p x = true /\ s = x ++ s' /\ c' = c
  | Re.Cat r1 r2 => exists s1 c1, sem r1 s c s1 c1 /\ sem r2 s1 c1 s' c'
  | Re.Opt r1 => sem r1 s c s' c' \/ (s' = s /\ c' = c)
  | Re.Grp n r1 =>
      exists c1, sem r1 s c s' c1 /\ c' = (n, Re.consumed s s') :: c1
  end.

Definition digit_string (x : string) : Prop :=
  Str.truthy x = true /\ all_chars Str.is_digit x = true.

(** What the caret operator asks of an installed version [v] against the
    required version [r], as a proposition. *)
Definition caret_compatible (v r : Version) : Prop :=
  VersionM.ge v r = true
  /\ (major r <> 0 -> major v = major r)
  /\ (major r = 0 -> minor r <> 0 -> major v = 0 /\ minor v = minor r)
  /\ (major r = 0 -> minor r = 0 ->
      major v = 0 /\ minor v = 0 /\ patch v = patch r).

(** [s[0].isspace()] for a non-empty [s]. *)
Definition starts_with_space (s : string) : bool :=
  match s with
  | EmptyString => false
  | String c _ => Str.is_space c
  end.

(** Lexicographic order on strings, by code point. *)
Inductive lex_lt : string -> string -> Prop :=
| lex_lt_nil (c : ascii) (s : string) : lex_lt "" (String c s)
| lex_lt_head (x y : ascii) (a b : string) :
    (Str.code x < Str.code y)%N -> lex_lt (String x a) (String y b)
| lex_lt_tail (x : ascii) (a b : string) :
    lex_lt a b -> lex_lt (String x a) (String x b).

(** [(major, minor, patch)] of [a] is lexicographically below that of [b]. *)
Definition triple_lt (a b : Version) : Prop :=
  major a < major b
  \/ (major a = major b
      /\ (minor a < minor b \/ (minor a = minor b /\ patch a < patch b))).

Definition same_triple (a b : Version) : Prop :=
  major a = major b /\ minor a = minor b /\ patch a = patch b.

(** The order of the specification. *)
Definition version_lt (a b : Version) : Prop :=
  triple_lt a b
  \/ (same_triple a b
      /\ ((prerelease a <> "" /\ prerelease b = "")
          \/ (prerelease a <> "" /\ prerelease b <> ""
              /\ lex_lt (prerelease a) (prerelease b)))).

Definition with_build (v : Version) (b : string) : Version :=
  mkVersion (major v) (minor v) (patch v) (prerelease v) b.






(** The last component of a path written with slashes. *)
Definition basename (p : string) : string :=
  match Str.rsplit1 "/" p with
  | [_; n] => n
  | _ => p
  end.

(** An environment over string paths: [dirs] lists the directories with
    the names of their entries, every path exists and is a directory,
    [commands] are the commands on the path, each printing [banner]. *)
Definition sample_world (dirs : list (string * list string))
    (commands : list string) (banner : string) : World :=
  mkWorld string
    (fun s => s)
    (fun p n => p ++ "/" ++ n)
    basename
    (fun p => p)
    (fun _ => true)
    (fun _ => true)
    (fun p =>
       match Dict.lookup p dirs with
       | Some names => map (fun n => p ++ "/" ++ n) names
       | None => []
       end)
    (fun _ => None)
    (fun c => existsb (String.eqb c) commands)
    (fun _ _ => Some (mkCompleted banner "" 0)).

(** [(key, i0 :: _)] is the first item of the registry whose key has the
    name [name] and whose install list is not empty. *)
Definition first_match (name : string) (l : list (string * list record))
    (key : string) (i0 : record) : Prop :=
  exists pre rest post,
    l = (pre ++ (key, i0 :: rest) :: post)%list
    /\ fst (_parse_plugin_key key) = name
    /\ forall k ins, In (k, ins) pre ->
                     fst (_parse_plugin_key k) = name -> ins = [].

(** No key of the registry with the name [name] has an install. *)
Definition no_match (name : string) (l : list (string * list record)) : Prop :=
  forall k ins, In (k, ins) l -> fst (_parse_plugin_key k) = name -> ins = [].




(** Two marketplaces, [z] and [y@z]; the first ships a plugin directory
    [x@y], the second a plugin directory [x]. *)
Definition clash_world : World :=
  sample_world [("/m1/plugins", ["x@y"]); ("/m2/plugins", ["x"])] [] "".

Definition clash_checker : DependencyChecker :=
  mkDependencyChecker Dict.empty Dict.empty
    (Dict.mk
       [("z", Dict.mk [("installLocation", "/m1")] eq_refl);
        ("y@z", Dict.mk [("installLocation", "/m2")] eq_refl)]
       eq_refl).

(** A marketplace [mk] with the plugin directories [a] and [b], of which
    [a@mk] is installed. *)
Definition tidy_world : World :=
  sample_world [("/mk/plugins", ["a"; "b"])] [] "".

Definition tidy_checker : DependencyChecker :=
  mkDependencyChecker
    (Dict.mk [("a@mk", [Dict.mk [("installPath", "/i/a")] eq_refl])] eq_refl)
    (Dict.mk [("a@mk", true)] eq_refl)
    (Dict.mk [("mk", Dict.mk [("installLocation", "/mk")] eq_refl)] eq_refl).















(** * The result document and [resolution-steps.py]

    The document the checker prints is a JSON object; the model covers the
    entries whose fields are [null], booleans or strings, which is what
    [to_dict] writes. *)

Inductive scalar :=
| SNull
| SBool (b : bool)
| SStr (s : string).

(** A dependency entry of the document: its fields in order. *)
Definition entry := list (string * scalar).

(** The document: the scope, the plugin asked for and the four buckets. *)
Record document := mkDocument {
  doc_scope : string;
  doc_plugin : scalar;
  doc_dependencies : list entry;
  doc_optional_dependencies : list entry;
  doc_system_dependencies : list entry;
  doc_optional_system_dependencies : list entry
}.

(** An optional string as a JSON value. *)
Definition scalar_of (o : option string) : scalar :=
  match o with
  | Some s => SStr s
  | None => SNull
  end.

(** The entry [key: value] when [value] is not [None]. *)
Definition field_if_set (key : string) (o : option string) : entry :=
  match o with
  | Some s => [(key, SStr s)]
  | None => []
  end.

(** [DependencyResult.to_dict] *)
Definition result_to_dict (d : DependencyResult) : entry :=
  (field_if_set "plugin" (plugin d)
   ++ field_if_set "command" (command d)
   ++ field_if_set "marketplace" (marketplace d)
   ++ [ ("dependent", SStr (dependent d));
        ("requiredVersion", SStr (required_version d));
        ("installed", SBool (installed d));
        ("enabled", SBool (enabled d));
        ("installedVersion", scalar_of (installed_version d));
        ("valid", SBool (valid d));
        ("help", SStr (help d)) ])%list.

Definition scope_name (s : Scope) : string :=
  match s with
  | ScopeEnabled => "enabled"
  | ScopeInstalled => "installed"
  | ScopeAll => "all"
  end.

(** [CheckResult.to_dict] *)
Definition check_result_to_dict (r : CheckResult) : document :=
  mkDocument (scope_name (checked_scope r)) (scalar_of (checked_plugin r))
    (map result_to_dict (dependencies r))
    (map result_to_dict (optional_dependencies r))
    (map result_to_dict (system_dependencies r))
    (map result_to_dict (optional_system_dependencies r)).

Module Steps.

(** The outcome of code of [resolution-steps.py]: a value, or the
    [AttributeError] of a string method called on a value that is not a
    string. *)
Inductive outcome (A : Type) : Type :=
| Done (a : A)
| AttributeError.
Arguments Done {A} a.
Arguments AttributeError {A}.

Definition obind {A B} (m : outcome A) (f : A -> outcome B) : outcome B :=
  match m with
  | Done a => f a
  | AttributeError => AttributeError
  end.

(** [bool(v)] *)
Definition truthy (v : scalar) : bool :=
  match v with
  | SNull => false
  | SBool b => b
  | SStr s => Str.truthy s
  end.

(** [dep.get(key, default)] *)
Fixpoint get (dep : entry) (key : string) (default : scalar) : scalar :=
  match dep with
  | [] => default
  | (k, v) :: dep' => if String.eqb k key then v else get dep' key default
  end.

(** A value inside an f-string. *)
Definition fmt (v : scalar) : string :=
  match v with
  | SNull => "None"
  | SBool true => "True"
  | SBool false => "False"
  | SStr s => s
  end.

Record ResolutionStep := mkResolutionStep {
  dep_type : string;
  name : scalar;
  dependent : scalar;
  marketplace : scalar;
  issue : string;
  resolution : string;
  help_text : string
}.

(** [parse_dependent] *)
Definition parse_dependent (dependent : scalar) : scalar :=
  if truthy dependent then dependent else SStr "unknown".

(** [help_text and not help_text.startswith(prefixes)] *)
Definition custom_help (help_text : scalar) (prefixes : list string)
    : outcome bool :=
  if truthy help_text then
    match help_text with
    | SStr s => Done (negb (existsb (Str.startswith s) prefixes))
    | _ => AttributeError
    end
  else Done false.

(** [get_plugin_resolution] *)
Definition get_plugin_resolution (dep : entry) (is_optional : bool)
    : outcome (option ResolutionStep) :=
  if truthy (get dep "valid" (SBool true)) then Done None
  else
    let plugin_name := get dep "plugin" (SStr "unknown") in
    let marketplace := get dep "marketplace" SNull in
    let dependent := parse_dependent (get dep "dependent" (SStr "")) in
    let installed := get dep "installed" (SBool false) in
    let enabled := get dep "enabled" (SBool false) in
    let installed_version := get dep "installedVersion" SNull in
    let required_version := get dep "requiredVersion" (SStr "*") in
    let help_text := get dep "help" (SStr "") in
    let dep_type := if is_optional then "Optional" else "Required" in
    let finish (issue resolution : string) (help_text : scalar) :=
      obind (custom_help help_text ["Plugin"])
        (fun keep =>
           Done (Some (mkResolutionStep dep_type plugin_name dependent
                         marketplace issue resolution
                         (if keep then fmt help_text else "")))) in
    if negb (truthy installed) then
      obind (custom_help help_text ["Plugin"])
        (fun custom =>
           let resolution :=
             if custom then fmt help_text
             else if truthy marketplace then
               "/plugin install " ++ fmt plugin_name ++ "@" ++ fmt marketplace
             else "/plugin install " ++ fmt plugin_name in
           finish "Not installed" resolution help_text)
    else if negb (truthy enabled) then
      finish "Installed but not enabled" "Enable via /plugin TUI" help_text
    else
      let issue :=
        "Version mismatch: " ++ fmt installed_version
        ++ " does not satisfy " ++ fmt required_version in
      let resolution :=
        if truthy marketplace then
          "/plugin update " ++ fmt plugin_name ++ "@" ++ fmt marketplace
        else "/plugin update " ++ fmt plugin_name in
      finish issue resolution (SStr "").

(** [get_system_resolution] *)
Definition get_system_resolution (dep : entry) (is_optional : bool)
    : outcome (option ResolutionStep) :=
  if truthy (get dep "valid" (SBool true)) then Done None
  else
    let command := get dep "command" (SStr "unknown") in
    let dependent := parse_dependent (get dep "dependent" (SStr "")) in
    let installed := get dep "installed" (SBool false) in
    let installed_version := get dep "installedVersion" SNull in
    let required_version := get dep "requiredVersion" (SStr "*") in
    let help_text := get dep "help" (SStr "") in
    let dep_type :=
      if is_optional then "Optional System" else "Required System" in
    let finish (issue resolution : string) :=
      obind (custom_help help_text ["Command"; "Installed version"])
        (fun keep =>
           Done (Some (mkResolutionStep dep_type command dependent SNull
                         issue resolution
                         (if keep then fmt help_text else "")))) in
    if negb (truthy installed) then
      obind (custom_help help_text ["Command"])
        (fun custom =>
           let resolution :=
             if custom then fmt help_text else "Install " ++ fmt command in
           finish "Not installed" resolution)
    else
      let issue :=
        "Version mismatch: " ++ fmt installed_version
        ++ " does not satisfy " ++ fmt required_version in
      obind (custom_help help_text ["Installed version"])
        (fun custom =>
           let resolution :=
             if custom then fmt help_text
             else "Update " ++ fmt command ++ " to satisfy version "
                  ++ fmt required_version in
           finish issue resolution).

(** One of the four loops of [generate_resolution_steps]. *)
Fixpoint collect (f : entry -> bool -> outcome (option ResolutionStep))
    (deps : list entry) (is_optional : bool) (steps : list ResolutionStep)
    : outcome (list ResolutionStep) :=
  match deps with
  | [] => Done steps
  | dep :: deps' =>
      obind (f dep is_optional)
        (fun step =>
           collect f deps' is_optional
             (match step with
              | Some s => (steps ++ [s])%list
              | None => steps
              end))
  end.

(** [generate_resolution_steps] *)
Definition generate_resolution_steps (data : document)
    : outcome (list ResolutionStep) :=
  obind (collect get_plugin_resolution (doc_dependencies data) false [])
    (fun steps =>
       obind (collect get_plugin_resolution (doc_optional_dependencies data)
                true steps)
         (fun steps =>
            obind (collect get_system_resolution
                     (doc_system_dependencies data) false steps)
              (fun steps =>
                 collect get_system_resolution
                   (doc_optional_system_dependencies data) true steps))).

(** The lines the loop of [format_resolution_steps] adds, the first step
    having number [i]. *)
Fixpoint step_lines (i : Z) (steps : list ResolutionStep) : list string :=
  match steps with
  | [] => []
  | step :: steps' =>
      (Str.of_int i ++ ". [" ++ dep_type step ++ "] " ++ fmt (name step)
       ++ " (required by " ++ fmt (dependent step) ++ ")")
      :: (if Str.truthy (help_text step) then "   " ++ help_text step
          else "   " ++ resolution step)
      :: "" :: step_lines (i + 1) steps'
  end.

(** [format_resolution_steps] *)
Definition format_resolution_steps (steps : list ResolutionStep) : string :=
  match steps with
  | [] => "All dependencies satisfied."
  | _ :: _ =>
      let n := Z.of_nat (List.length steps) in
      let lines :=
        ("## Resolution Steps (" ++ Str.of_int n ++ " issue"
         ++ (if negb (n =? 1) then "s" else "") ++ ")")
        :: "" :: step_lines 1 steps in
      Str.rstrip_by Str.is_space (Str.join Re.newline lines)
  end.

(** The value [main] returns for the steps. *)
Definition exit_code (steps : list ResolutionStep) : Z :=
  let required_issues :=
    List.length
      (filter
         (fun step =>
            (String.eqb (dep_type step) "Required"
             || String.eqb (dep_type step) "Required System")%bool)
         steps) in
  if (0 <? Z.of_nat required_issues) then 1 else 0.

(** [main] on a document that was read, without the printing. *)
Definition main (data : document) : outcome Z :=
  obind (generate_resolution_steps data) (fun steps => Done (exit_code steps)).

End Steps.

(** The number of invalid results of a bucket. *)
Definition count_invalid (l : list DependencyResult) : nat :=
  List.length (filter (fun d => negb (valid d)) l).


(** * [table-renderer.py]: the notes column *)

Module Table.


End Table.

(** The number of invalid results of a run, optional ones included. *)
Definition total_invalid (r : CheckResult) : nat :=
  count_invalid (dependencies r) + count_invalid (optional_dependencies r)
  + count_invalid (system_dependencies r)
  + count_invalid (optional_system_dependencies r).

(** A result with one required plugin dependency whose version does not
    fit. *)
Definition outdated_bar_result : CheckResult :=
  mkCheckResult ScopeEnabled None
    [mkDependencyResult (Some "bar") None None "foo@marketA" ">=2.0.0"
       true true (Some "1.5.0") false
       "Installed version 1.5.0 does not satisfy required version >=2.0.0"]
    [] [] [].

(** * Properties *)

(** ** Sample evaluations *)

Example parse_sample :
  VersionM.parse "1.2.3-beta+build5"
  = Ok (Some (mkVersion 1 2 3 "beta" "build5")).
Proof. vm_compute. reflexivity. Qed.

Example parse_strips_blanks_and_v :
  VersionM.parse "  v1.2  " = Ok (Some (mkVersion 1 2 0 "" "")).
Proof. vm_compute. reflexivity. Qed.

Example parse_rejects_twelve_digits :
  VersionM.parse "123456789012" = Ok None.
Proof. vm_compute. reflexivity. Qed.

Example tilde_samples :
  version_satisfies "1.2.9" "~1.2.3" = Ok true
  /\ version_satisfies "1.3.0" "~1.2.3" = Ok false.
Proof. split; vm_compute; reflexivity. Qed.

Example range_sample : version_satisfies "1.5.0" ">= 2.0.0" = Ok false.
Proof. vm_compute. reflexivity. Qed.

Example constraint_samples :
  parse_version_constraint " >= 1.0 " = (">=", "1.0")
  /\ parse_version_constraint "1.0" = ("=", "1.0")
  /\ parse_version_constraint "*" = ("*", "").
Proof. repeat split; vm_compute; reflexivity. Qed.

Example probe_sample :
  option_map (fun m => Re.group m 1)
    (search probe_pattern "git Version 2.39.1-rc0 (x)")
  = Some (Some "2.39.1-rc0").
Proof. vm_compute. reflexivity. Qed.

(** ** Strings *)

Section StripLemmas.

Variable p : ascii -> bool.

Lemma lstrip_by_idem (s : string) :
  Str.lstrip_by p (Str.lstrip_by p s) = Str.lstrip_by p s.
Proof.
  induction s as [|c s IH]; simpl; [reflexivity|].
  destruct (p c) eqn:E; [exact IH | simpl; rewrite E; reflexivity].
Qed.

Lemma rstrip_by_idem (s : string) :
  Str.rstrip_by p (Str.rstrip_by p s) = Str.rstrip_by p s.
Proof.
  induction s as [|c s IH]; simpl; [reflexivity|].
  destruct (p c && negb (Str.truthy (Str.rstrip_by p s)))%bool eqn:E;
    simpl; [reflexivity|].
  rewrite IH, E. reflexivity.
Qed.

Lemma lstrip_by_falsy (s : string) :
  Str.truthy s = false -> Str.lstrip_by p s = s.
Proof. destruct s; [reflexivity | discriminate]. Qed.

Lemma rstrip_lstrip_comm (s : string) :
  Str.rstrip_by p (Str.lstrip_by p s) = Str.lstrip_by p (Str.rstrip_by p s).
Proof.
  induction s as [|c s IH]; simpl; [reflexivity|].
  destruct (p c) eqn:E; simpl.
  - rewrite IH.
    destruct (Str.truthy (Str.rstrip_by p s)) eqn:T; simpl.
    + rewrite E. reflexivity.
    + destruct (Str.rstrip_by p s); [reflexivity | discriminate].
  - rewrite E. reflexivity.
Qed.

(** A string that does not start with a stripped character keeps its
    left end when it is stripped on the right. *)
Lemma lstrip_rstrip_head (c : ascii) (s : string) :
  p c = false ->
  Str.lstrip_by p (Str.rstrip_by p (String c s)) = Str.rstrip_by p (String c s).
Proof.
  intros E. simpl. rewrite E. simpl. rewrite E. reflexivity.
Qed.

End StripLemmas.

Lemma strip_idem (s : string) : Str.strip (Str.strip s) = Str.strip s.
Proof.
  unfold Str.strip.
  rewrite rstrip_lstrip_comm, rstrip_by_idem, lstrip_by_idem. reflexivity.
Qed.

Lemma parse_clean_empty : VersionM.parse_clean "" = Ok None.
Proof. reflexivity. Qed.

(** Stripping the argument first does not change what [parse] returns. *)
Lemma parse_strip (s : string) :
  VersionM.parse (Str.strip s) = VersionM.parse s.
Proof.
  unfold VersionM.parse.
  destruct (Str.truthy s) eqn:Ts; simpl.
  - rewrite strip_idem.
    destruct (Str.truthy (Str.strip s)) eqn:T; simpl; [reflexivity|].
    destruct (Str.strip s); [reflexivity | discriminate].
  - destruct s; [reflexivity | discriminate].
Qed.

(** ** What a successful match says about the input *)

Lemma length_append (a b : string) :
  String.length (a ++ b) = (String.length a + String.length b)%nat.
Proof. induction a; simpl; congruence. Qed.

Lemma substring_prefix (x s : string) :
  String.substring 0 (String.length x) (x ++ s) = x.
Proof.
  induction x as [|a x IH]; simpl.
  - destruct s; reflexivity.
  - rewrite IH. reflexivity.
Qed.

Lemma consumed_app (x s : string) : Re.consumed (x ++ s) s = x.
Proof.
  unfold Re.consumed. rewrite length_append.
  replace (String.length x + String.length s - String.length s)%nat
    with (String.length x) by lia.
  apply substring_prefix.
Qed.

Lemma plus_from_sound (p : ascii -> bool) (s : string) :
  forall i c k res,
    Re.plus_from p i s c k = Some res ->
    exists i' x s',
      Str.truthy x = true /\ all_chars p x = true /\ s = x ++ s'
      /\ k i' s' c = Some res.
Proof.
  induction s as [|a s IH]; intros i c k res H; simpl in H; [discriminate|].
  destruct (p a) eqn:Pa; [|discriminate].
  destruct (Re.plus_from p (S i) s c k) eqn:R.
  - destruct (IH _ _ _ _ R) as (i' & x & s' & _ & Hall & Hs & Hk).
    exists i', (String a x), s'. simpl. rewrite Pa, Hall, Hs.
    inversion H; subst. auto.
  - exists (S i), (String a ""), s. simpl. rewrite Pa. auto.
Qed.

(** Every match runs the continuation on a state the pattern leads to, and
    what was read is a prefix of the input. *)
Lemma run_sound (r : Re.regex) :
  forall i s c k res,
    Re.run r i s c k = Some res ->
    exists i' s' c',
      sem r s c s' c' /\ (exists x, s = x ++ s') /\ k i' s' c' = Some res.
Proof.
  induction r as [| |p|p|p|r1 IH1 r2 IH2|r1 IH1|n r1 IH1];
    intros i s c k res H; simpl in H.
  - destruct (Nat.eqb i 0); [|discriminate].
    exists i, s, c. simpl. split; [auto|]. split; [exists ""; reflexivity | exact H].
  - destruct (String.eqb s "" || String.eqb s Re.newline)%bool; [|discriminate].
    exists i, s, c. simpl. split; [auto|]. split; [exists ""; reflexivity | exact H].
  - destruct s as [|a s]; [discriminate|].
    destruct (p a) eqn:Pa; [|discriminate].
    exists (S i), s, c. simpl. split; [exists a; auto|].
    split; [exists (String a ""); reflexivity | exact H].
  - destruct (plus_from_sound _ _ _ _ _ _ H) as (i' & x & s' & T & A & E & K).
    exists i', s', c. simpl. split; [exists x; auto|].
    split; [exists x; exact E | exact K].
  - unfold Re.star_from in H.
    destruct (Re.plus_from p i s c k) eqn:R.
    + destruct (plus_from_sound _ _ _ _ _ _ R) as (i' & x & s' & T & A & E & K).
      exists i', s', c. simpl. split; [exists x; auto|].
      split; [exists x; exact E | congruence].
    + exists i, s, c. simpl. split; [exists ""; auto|].
      split; [exists ""; reflexivity | exact H].
  - destruct (IH1 _ _ _ _ _ H) as (i1 & s1 & c1 & S1 & (x1 & E1) & K1).
    destruct (IH2 _ _ _ _ _ K1) as (i2 & s2 & c2 & S2 & (x2 & E2) & K2).
    exists i2, s2, c2. simpl. split; [exists s1, c1; auto|].
    split; [|exact K2].
    exists (x1 ++ x2). subst. clear. induction x1; simpl; congruence.
  - destruct (Re.run r1 i s c k) eqn:R.
    + destruct (IH1 _ _ _ _ _ R) as (i1 & s1 & c1 & S1 & X1 & K1).
      exists i1, s1, c1. simpl. split; [auto|]. split; [exact X1 | congruence].
    + exists i, s, c. simpl. split; [auto|].
      split; [exists ""; reflexivity | exact H].
  - destruct (IH1 _ _ _ _ _ H) as (i1 & s1 & c1 & S1 & (x1 & E1) & K1).
    exists i1, s1, ((n, Re.consumed s s1) :: c1). simpl.
    split; [|split; [exists x1; exact E1 | exact K1]].
    exists c1. split; [exact S1 | reflexivity].
Qed.

Lemma rmatch_sound (r : Re.regex) (s : string) (m : Re.captures) :
  Re.rmatch r s = Some m -> exists s', sem r s [] s' m.
Proof.
  intros H. apply run_sound in H.
  destruct H as (i' & s' & c' & S & _ & K). inversion K; subst.
  exists s'. exact S.
Qed.

(** ** [Version.parse] never raises *)

Lemma digits_value_ok (x : string) :
  all_chars Str.is_digit x = true ->
  forall acc, 0 <= acc -> exists z, digits_value acc x = Ok z /\ 0 <= z.
Proof.
  induction x as [|a x IH]; cbn [digits_value all_chars]; intros H acc Hacc.
  - exists acc. auto.
  - apply andb_prop in H. destruct H as [Ha Hx]. rewrite Ha.
    apply IH; [exact Hx | lia].
Qed.

Lemma int_ok (x : string) :
  digit_string x -> exists z, int x = Ok z /\ 0 <= z.
Proof.
  intros [T D]. unfold int. rewrite T. apply digits_value_ok; [exact D | lia].
Qed.

Lemma int_or_0_ok (g : option string) :
  (g = None \/ exists x, g = Some x /\ digit_string x) ->
  exists z, int_or_0 g = Ok z /\ 0 <= z.
Proof.
  intros [->|(x & -> & D)]; simpl.
  - exists 0. split; [reflexivity | lia].
  - destruct D as [T D]. rewrite T. apply int_ok. split; assumption.
Qed.

Ltac break_sem :=
  repeat match goal with
         | H : exists _, _ |- _ => destruct H
         | H : _ /\ _ |- _ => destruct H
         | H : _ \/ _ |- _ => destruct H
         end.

(** The numeric groups of a match of the version pattern hold digits. *)
Lemma semver_groups (s : string) (m : Re.captures) :
  Re.rmatch semver_pattern s = Some m ->
  (exists x, Re.group m 1 = Some x /\ digit_string x)
  /\ (Re.group m 2 = None \/ exists x, Re.group m 2 = Some x /\ digit_string x)
  /\ (Re.group m 3 = None \/ exists x, Re.group m 3 = Some x /\ digit_string x).
Proof.
  intros H. apply rmatch_sound in H. destruct H as [s' H].
  unfold semver_pattern in H. cbn [sem Re.seq] in H.
  break_sem; subst; rewrite ?consumed_app; cbn [Re.group Nat.eqb];
    unfold digit_string; repeat split; eauto 8.
Qed.




(** ** Constraint parsing *)

Lemma strip_cons (c : ascii) (s : string) :
  Str.is_space c = false ->
  Str.strip (String c s) = String c (Str.rstrip_by Str.is_space s).
Proof.
  intros E. unfold Str.strip. cbn [Str.rstrip_by]. rewrite E.
  cbn [andb Str.lstrip_by]. rewrite E. reflexivity.
Qed.

Lemma strip_rstrip (s : string) :
  Str.strip (Str.rstrip_by Str.is_space s) = Str.strip s.
Proof. unfold Str.strip. rewrite rstrip_by_idem. reflexivity. Qed.

Lemma prefix_empty (s : string) : String.prefix "" s = true.
Proof. destruct s; reflexivity. Qed.

(** A constraint that starts with the caret is cut into the caret and the
    stripped rest. *)
Lemma parse_version_constraint_caret (rs : string) :
  parse_version_constraint ("^" ++ rs) = ("^", Str.strip rs).
Proof.
  unfold parse_version_constraint. cbn [append].
  rewrite strip_cons by reflexivity.
  rewrite <- (strip_rstrip rs).
  generalize (Str.rstrip_by Str.is_space rs) as r. intros r.
  unfold Str.startswith. cbn. rewrite prefix_empty. reflexivity.
Qed.

(** ** The constraint engine's claims *)

(** C1. For installed and required strings that both parse,
    [version_satisfies(v, "^" + R)] is true exactly when [v >= R] and the
    leftmost non-zero component of [R] is unchanged in [v]; with the four
    sample evaluations of the specification. *)
Theorem caret_freezes_leftmost_nonzero :
  (forall (vs rs : string) (v r : Version),
      VersionM.parse vs = Ok (Some v) ->
      VersionM.parse rs = Ok (Some r) ->
      exists b, version_satisfies vs ("^" ++ rs) = Ok b
                /\ (b = true <-> caret_compatible v r))
  /\ version_satisfies "1.9.9" "^1.2.3" = Ok true
  /\ version_satisfies "2.0.0" "^1.2.3" = Ok false
  /\ version_satisfies "0.2.9" "^0.2.3" = Ok true
  /\ version_satisfies "0.3.0" "^0.2.3" = Ok false.
Proof.
  split; [|repeat split; vm_compute; reflexivity].
  intros vs rs v r Hv Hr. unfold version_satisfies.
  rewrite parse_version_constraint_caret.
  cbn [append String.eqb Ascii.eqb Bool.eqb]. rewrite Hv. cbn [bind].
  rewrite parse_strip, Hr. cbn [bind String.eqb Ascii.eqb Bool.eqb].
  unfold caret_compatible, VersionM.ge.
  destruct (VersionM.lt v r) eqn:L; cbn [negb].
  - exists false. split; [reflexivity|]. split; [discriminate|].
    intros [H _]. discriminate.
  - destruct (major r =? 0) eqn:E1; cbn [negb].
    + destruct (minor r =? 0) eqn:E2; cbn [negb]; eexists; (split; [reflexivity|]).
      * rewrite !andb_true_iff, !Z.eqb_eq. apply Z.eqb_eq in E1, E2.
        intuition (try congruence).
      * rewrite !andb_true_iff, !Z.eqb_eq. apply Z.eqb_eq in E1.
        apply Z.eqb_neq in E2. intuition (try congruence).
    + apply Z.eqb_neq in E1. eexists. split; [reflexivity|].
      rewrite Z.eqb_eq. intuition (try congruence).
Qed.

Lemma caret_freezes_leftmost_nonzero_witness :
  exists b, version_satisfies "0.0.3" ("^" ++ "0.0.3") = Ok b
            /\ (b = true <->
                caret_compatible (mkVersion 0 0 3 "" "") (mkVersion 0 0 3 "" "")).
Proof.
  apply (proj1 caret_freezes_leftmost_nonzero "0.0.3" "0.0.3");
    vm_compute; reflexivity.
Defined.





(** C9. Parsing ["1.2.3-beta+build5"] gives the version
    (1, 2, 3, "beta", "build5") and printing that version gives the string
    back. *)
Theorem parse_str_roundtrip_sample :
  VersionM.parse "1.2.3-beta+build5"
  = Ok (Some (mkVersion 1 2 3 "beta" "build5"))
  /\ VersionM.to_str (mkVersion 1 2 3 "beta" "build5") = "1.2.3-beta+build5".
Proof. split; vm_compute; reflexivity. Qed.

(** ** Leading [v] *)

(** C10, amended.  For every string that does not start with white space,
    a [v] put in front does not change what [parse] returns; ["v1.2.3"]
    parses to 1.2.3 and a [v] followed by twelve hexadecimal digits is
    rejected like the digits alone. *)
Theorem parse_ignores_leading_v :
  (forall s, starts_with_space s = false ->
             VersionM.parse ("v" ++ s) = VersionM.parse s)
  /\ VersionM.parse "v1.2.3" = Ok (Some (mkVersion 1 2 3 "" ""))
  /\ VersionM.parse "vabc123def456" = Ok None.
Proof.
  split; [|split; vm_compute; reflexivity].
  intros s H. unfold VersionM.parse. cbn [append Str.truthy negb].
  rewrite strip_cons by reflexivity.
  unfold Str.lstrip_v at 1. cbn [Str.lstrip_by Str.is_char Ascii.eqb Bool.eqb].
  destruct s as [|c s]; [reflexivity|].
  cbn [Str.truthy negb]. cbn [starts_with_space] in H.
  unfold Str.strip. rewrite lstrip_rstrip_head by exact H. reflexivity.
Qed.

Lemma parse_ignores_leading_v_witness :
  VersionM.parse ("v" ++ "2.0") = VersionM.parse "2.0".
Proof.
  apply (proj1 parse_ignores_leading_v "2.0"). reflexivity.
Defined.

(** C10 as stated fails: in front of a string that starts with a blank the
    [v] is not taken off before the blank is, and the result differs. *)
Lemma parse_leading_v_before_space :
  VersionM.parse ("v" ++ " 1.2.3") = Ok None
  /\ VersionM.parse " 1.2.3" = Ok (Some (mkVersion 1 2 3 "" ""))
  /\ VersionM.parse ("v" ++ " 1.2.3") <> VersionM.parse " 1.2.3".
Proof.
  split; [vm_compute; reflexivity|].
  split; [vm_compute; reflexivity|].
  vm_compute. discriminate.
Qed.

(** ** Version ordering *)

Lemma code_inj (x y : ascii) : Str.code x = Str.code y -> x = y.
Proof.
  unfold Str.code. intros H.
  rewrite <- (ascii_N_embedding x), <- (ascii_N_embedding y), H. reflexivity.
Qed.

Lemma ltb_lex (a b : string) : Str.ltb a b = true <-> lex_lt a b.
Proof.
  revert b. induction a as [|x a IH]; intros [|y b]; cbn [Str.ltb].
  - split; [discriminate | inversion 1].
  - split; [constructor | reflexivity].
  - split; [discriminate | inversion 1].
  - destruct (N.ltb_spec (Str.code x) (Str.code y)) as [L|L].
    + split; [intros _; constructor; exact L | reflexivity].
    + destruct (N.ltb_spec (Str.code y) (Str.code x)) as [G|G].
      * split; [discriminate|]. inversion 1; subst; lia.
      * assert (x = y) by (apply code_inj; lia). subst y.
        rewrite IH. split; [constructor; assumption|].
        inversion 1; subst; [lia | assumption].
Qed.

Lemma ltb_irrefl (a : string) : Str.ltb a a = false.
Proof.
  induction a as [|x a IH]; cbn [Str.ltb]; [reflexivity|].
  rewrite N.ltb_irrefl. exact IH.
Qed.

Lemma ltb_asym (a b : string) : Str.ltb a b = true -> Str.ltb b a = false.
Proof.
  revert b. induction a as [|x a IH]; intros [|y b]; cbn [Str.ltb];
    try discriminate; try reflexivity.
  destruct (N.ltb_spec (Str.code x) (Str.code y)) as [L|L];
    destruct (N.ltb_spec (Str.code y) (Str.code x)) as [G|G];
    try lia; try discriminate; try reflexivity.
  apply IH.
Qed.

Lemma ltb_connected (a b : string) :
  Str.ltb a b = false -> Str.ltb b a = false -> a = b.
Proof.
  revert b. induction a as [|x a IH]; intros [|y b]; cbn [Str.ltb];
    try discriminate; try reflexivity.
  destruct (N.ltb_spec (Str.code x) (Str.code y)) as [L|L];
    destruct (N.ltb_spec (Str.code y) (Str.code x)) as [G|G];
    try lia; try discriminate.
  intros H1 H2. assert (x = y) by (apply code_inj; lia). subst y.
  f_equal. apply IH; assumption.
Qed.

Lemma ltb_trans (a b c : string) :
  Str.ltb a b = true -> Str.ltb b c = true -> Str.ltb a c = true.
Proof.
  revert b c. induction a as [|x a IH]; intros [|y b] [|z c]; cbn [Str.ltb];
    try discriminate; try reflexivity.
  destruct (N.ltb_spec (Str.code x) (Str.code y)) as [L1|L1];
    destruct (N.ltb_spec (Str.code y) (Str.code x)) as [G1|G1];
    destruct (N.ltb_spec (Str.code y) (Str.code z)) as [L2|L2];
    destruct (N.ltb_spec (Str.code z) (Str.code y)) as [G2|G2];
    destruct (N.ltb_spec (Str.code x) (Str.code z)) as [L3|L3];
    destruct (N.ltb_spec (Str.code z) (Str.code x)) as [G3|G3];
    try lia; try discriminate; try reflexivity.
  apply IH.
Qed.

Lemma truthy_iff (s : string) : Str.truthy s = true <-> s <> "".
Proof. destruct s; simpl; split; congruence. Qed.

Lemma falsy_iff (s : string) : Str.truthy s = false <-> s = "".
Proof. destruct s; simpl; split; congruence. Qed.

Lemma lt_iff (a b : Version) : VersionM.lt a b = true <-> version_lt a b.
Proof.
  unfold VersionM.lt, version_lt, triple_lt, same_triple, VersionM.triple,
    VersionM.triple_eqb, VersionM.triple_ltb.
  destruct (Z.eqb_spec (major a) (major b)) as [E1|E1]; cbn [andb negb].
  - destruct (Z.eqb_spec (minor a) (minor b)) as [E2|E2]; cbn [andb negb].
    + destruct (Z.eqb_spec (patch a) (patch b)) as [E3|E3]; cbn [andb negb].
      * destruct (Str.truthy (prerelease a)) eqn:Ta;
          destruct (Str.truthy (prerelease b)) eqn:Tb; cbn [andb negb];
          rewrite ?truthy_iff, ?falsy_iff in *.
        -- rewrite ltb_lex. intuition (try lia; try congruence).
        -- intuition (try lia; try congruence).
        -- intuition (try lia; try congruence).
        -- subst. rewrite Ta, Tb. cbn [Str.ltb].
           intuition (try lia; try congruence).
      * rewrite Z.ltb_lt. intuition (try lia; try congruence).
    + rewrite Z.ltb_lt. intuition (try lia; try congruence).
  - rewrite Z.ltb_lt. intuition (try lia; try congruence).
Qed.

Lemma eq_iff (a b : Version) :
  VersionM.eq a b = true <-> same_triple a b /\ prerelease a = prerelease b.
Proof.
  unfold VersionM.eq, same_triple.
  rewrite !andb_true_iff, !Z.eqb_eq, String.eqb_eq. tauto.
Qed.

Lemma lt_trichotomy (a b : Version) :
  (VersionM.lt a b = true /\ VersionM.eq a b = false /\ VersionM.lt b a = false)
  \/ (VersionM.lt a b = false /\ VersionM.eq a b = true /\ VersionM.lt b a = false)
  \/ (VersionM.lt a b = false /\ VersionM.eq a b = false /\ VersionM.lt b a = true).
Proof.
  unfold VersionM.lt, VersionM.eq, VersionM.triple, VersionM.triple_eqb,
    VersionM.triple_ltb.
  rewrite (Z.eqb_sym (major b)), (Z.eqb_sym (minor b)), (Z.eqb_sym (patch b)).
  destruct (Z.eqb_spec (major a) (major b)) as [E1|E1]; cbn [andb negb].
  2:{ destruct (Z.ltb_spec (major a) (major b));
      destruct (Z.ltb_spec (major b) (major a)); try lia; auto. }
  destruct (Z.eqb_spec (minor a) (minor b)) as [E2|E2]; cbn [andb negb].
  2:{ destruct (Z.ltb_spec (minor a) (minor b));
      destruct (Z.ltb_spec (minor b) (minor a)); try lia; auto. }
  destruct (Z.eqb_spec (patch a) (patch b)) as [E3|E3]; cbn [andb negb].
  2:{ destruct (Z.ltb_spec (patch a) (patch b));
      destruct (Z.ltb_spec (patch b) (patch a)); try lia; auto. }
  destruct (String.eqb_spec (prerelease a) (prerelease b)) as [E|E].
  - rewrite E, ltb_irrefl.
    destruct (Str.truthy (prerelease b)); cbn [andb negb]; auto.
  - destruct (Str.truthy (prerelease a)) eqn:Ta;
      destruct (Str.truthy (prerelease b)) eqn:Tb; cbn [andb negb]; auto.
    + destruct (Str.ltb (prerelease a) (prerelease b)) eqn:L.
      * rewrite (ltb_asym _ _ L). auto.
      * destruct (Str.ltb (prerelease b) (prerelease a)) eqn:G; auto.
        exfalso. apply E, ltb_connected; assumption.
    + exfalso. apply E. apply falsy_iff in Ta, Tb. congruence.
Qed.

Lemma lt_trans (a b c : Version) :
  VersionM.lt a b = true -> VersionM.lt b c = true -> VersionM.lt a c = true.
Proof.
  rewrite !lt_iff. unfold version_lt, triple_lt, same_triple.
  intros [H1|(S1 & H1)] [H2|(S2 & H2)].
  - left. lia.
  - left. lia.
  - left. lia.
  - right. split; [lia|].
    destruct H1 as [(A & B)|(A & B & L1)]; destruct H2 as [(C & D)|(C & D & L2)];
      try congruence; auto.
    right. repeat split; auto.
    apply ltb_lex. apply ltb_lex in L1, L2. eapply ltb_trans; eassumption.
Qed.

Lemma lt_with_build (a b : Version) (x y : string) :
  VersionM.lt (with_build a x) (with_build b y) = VersionM.lt a b.
Proof. reflexivity. Qed.

Lemma eq_with_build (a b : Version) (x y : string) :
  VersionM.eq (with_build a x) (with_build b y) = VersionM.eq a b.
Proof. reflexivity. Qed.

(** C7. The comparisons order versions by (major, minor, patch), then by
    prerelease (a prerelease sorts below the release, two prereleases by
    string order); the order is total, and build metadata has no part in
    any of [<], [<=], [>], [>=], [==]. *)
Theorem version_order_total (a b : Version) :
  (VersionM.lt a b = true <-> version_lt a b)
  /\ (VersionM.eq a b = true <->
      same_triple a b /\ prerelease a = prerelease b)
  /\ ((VersionM.lt a b = true /\ VersionM.eq a b = false
       /\ VersionM.lt b a = false)
      \/ (VersionM.lt a b = false /\ VersionM.eq a b = true
          /\ VersionM.lt b a = false)
      \/ (VersionM.lt a b = false /\ VersionM.eq a b = false
          /\ VersionM.lt b a = true))
  /\ (forall c, VersionM.lt a b = true -> VersionM.lt b c = true ->
                VersionM.lt a c = true)
  /\ VersionM.gt a b = VersionM.lt b a
  /\ VersionM.ge a b = VersionM.le b a
  /\ (forall x y,
        VersionM.lt (with_build a x) (with_build b y) = VersionM.lt a b
        /\ VersionM.le (with_build a x) (with_build b y) = VersionM.le a b
        /\ VersionM.gt (with_build a x) (with_build b y) = VersionM.gt a b
        /\ VersionM.ge (with_build a x) (with_build b y) = VersionM.ge a b
        /\ VersionM.eq (with_build a x) (with_build b y) = VersionM.eq a b)
  /\ (forall x, VersionM.eq a (with_build a x) = true).
Proof.
  split; [apply lt_iff|]. split; [apply eq_iff|].
  split; [apply lt_trichotomy|].
  split; [intros c; apply lt_trans|].
  split.
  { unfold VersionM.gt, VersionM.le.
    destruct (lt_trichotomy a b) as [(->&->&->)|[(->&->&->)|(->&->&->)]];
      reflexivity. }
  split.
  { unfold VersionM.ge, VersionM.le.
    destruct (lt_trichotomy b a) as [(->&->&E)|[(->&->&E)|(->&->&E)]];
      rewrite E; reflexivity. }
  split; [intros x y; repeat split|].
  intros x. apply eq_iff. unfold same_triple. simpl. auto.
Qed.

Lemma version_order_total_witness :
  VersionM.lt (mkVersion 1 0 0 "alpha" "") (mkVersion 1 0 0 "" "b7") = true
  /\ VersionM.lt (mkVersion 1 0 0 "alpha" "") (mkVersion 1 0 1 "" "") = true.
Proof.
  split.
  - apply (proj1 (version_order_total _ _)).
    right. split; [repeat split|]. left. split; [discriminate | reflexivity].
  - apply (proj1 (proj2 (proj2 (proj2
             (version_order_total (mkVersion 1 0 0 "alpha" "")
                (mkVersion 1 0 0 "" "b7")))))
             (mkVersion 1 0 1 "" "")); reflexivity.
Defined.

(** ** The dependency evaluator's claims *)













(** ** A concrete environment *)


Example system_dependency_git :
  _check_system_dependency (sample_world [] ["git"] "git version 2.39.1")
    "git" ">=2.40" "foo@marketA"
  = Ok (mkDependencyResult None (Some "git") None "foo@marketA" ">=2.40"
          true true (Some "2.39.1") false
          "Installed version 2.39.1 does not satisfy required version >=2.40").
Proof. vm_compute. reflexivity. Qed.

(** ** Single-plugin mode *)





Lemma first_named_tuple_length (name : string)
    (l : list (string * list record)) :
  (List.length (first_named_tuple name l) <= 1)%nat.
Proof.
  induction l as [|[k ins] l IH]; cbn [first_named_tuple]; [cbn; lia|].
  destruct (_parse_plugin_key k) as [n m].
  destruct (String.eqb n name); [|exact IH].
  destruct ins; [exact IH | cbn; lia].
Qed.

(** The registry either has a first match for a name or none at all. *)
Lemma first_match_or_none (name : string) (l : list (string * list record)) :
  (exists key i0, first_match name l key i0) \/ no_match name l.
Proof.
  induction l as [|[k ins] l IH].
  - right. intros k ins [].
  - destruct (String.eqb_spec (fst (_parse_plugin_key k)) name) as [E|E].
    + destruct ins as [|i0 rest].
      * destruct IH as [(key & i0 & pre & rest & post & -> & Hn & Hpre)|IH].
        -- left. exists key, i0, ((k, []) :: pre), rest, post.
           split; [reflexivity|]. split; [exact Hn|].
           intros k' ins' [Heq|Hin]; [inversion Heq; reflexivity|].
           apply Hpre. exact Hin.
        -- right. intros k' ins' [Heq|Hin]; [inversion Heq; reflexivity|].
           apply IH. exact Hin.
      * left. exists k, i0, [], rest, l. split; [reflexivity|].
        split; [exact E|]. intros k' ins' [].
    + destruct IH as [(key & i0 & pre & rest & post & -> & Hn & Hpre)|IH].
      * left. exists key, i0, ((k, ins) :: pre), rest, post.
        split; [reflexivity|]. split; [exact Hn|].
        intros k' ins' [Heq|Hin]; [inversion Heq; subst; contradiction|].
        apply Hpre. exact Hin.
      * right. intros k' ins' [Heq|Hin]; [inversion Heq; subst; contradiction|].
        apply IH. exact Hin.
Qed.

Lemma rsplit1_join (sep : ascii) (s h t : string) :
  Str.rsplit1 sep s = [h; t] -> s = h ++ String sep t.
Proof.
  revert h t. induction s as [|a s IH]; intros h t H; cbn [Str.rsplit1] in H;
    [discriminate|].
  destruct (Str.rsplit1 sep s) as [|h' [|t' [|x l]]] eqn:R.
  - destruct (Ascii.eqb_spec a sep) as [->|]; inversion H; reflexivity.
  - destruct (Ascii.eqb_spec a sep) as [->|]; inversion H; reflexivity.
  - inversion H; subst. cbn [append]. f_equal. apply IH. reflexivity.
  - destruct (Ascii.eqb_spec a sep) as [->|]; inversion H; reflexivity.
Qed.







(** ** No plugin key is enumerated twice *)

Lemma existsb_eqb_In (k : string) (ks : list string) :
  existsb (String.eqb k) ks = true <-> In k ks.
Proof.
  rewrite existsb_exists. split.
  - intros (x & Hin & E). apply String.eqb_eq in E. subst. exact Hin.
  - intros Hin. exists k. split; [exact Hin | apply String.eqb_refl].
Qed.

Lemma distinct_NoDup (ks : list string) :
  Dict.distinct ks = true -> NoDup ks.
Proof.
  induction ks as [|k ks IH]; cbn [Dict.distinct]; intros H; constructor.
  - apply andb_prop in H. destruct H as [H _]. apply negb_true_iff in H.
    intros Hin. apply existsb_eqb_In in Hin. congruence.
  - apply IH. apply andb_prop in H. tauto.
Qed.

Lemma dict_keys_NoDup {V} (d : dict V) : NoDup (map fst (Dict.items d)).
Proof. apply distinct_NoDup, Dict.keys_distinct. Qed.

Section TaggedFlatMap.

Context {A B K T : Type}.
Variable pr : B -> K.
Variable owner : K -> T.
Variable tag : A -> T.
Variable g : A -> list B.

(** Lists produced from items with distinct tags, each element naming the
    tag of the item it comes from, have no element twice. *)
Lemma NoDup_flat_map_tagged (l : list A) :
  NoDup (map tag l) ->
  (forall a, In a l -> NoDup (map pr (g a))) ->
  (forall a b, In a l -> In b (g a) -> owner (pr b) = tag a) ->
  NoDup (map pr (flat_map g l)).
Proof.
  induction l as [|a l IH]; cbn [flat_map map]; intros Hl Hg Ho;
    [constructor|].
  rewrite map_app. inversion Hl as [|x xs Hnotin Hl']; subst.
  apply NoDup_app.
  - apply Hg. left. reflexivity.
  - apply IH; [exact Hl' | |].
    + intros a' Ha'. apply Hg. right. exact Ha'.
    + intros a' b Ha' Hb. apply Ho; [right; exact Ha' | exact Hb].
  - intros k Hk1 Hk2. apply in_map_iff in Hk1, Hk2.
    destruct Hk1 as (b1 & E1 & Hb1). destruct Hk2 as (b2 & E2 & Hb2).
    apply in_flat_map in Hb2. destruct Hb2 as (a' & Ha' & Hb2).
    apply Hnotin. apply in_map_iff. exists a'. split; [|exact Ha'].
    rewrite <- (Ho a' b2 (or_intror Ha') Hb2).
    rewrite <- (Ho a b1 (or_introl eq_refl) Hb1). congruence.
Qed.

End TaggedFlatMap.

Lemma rsplit1_no_sep (sep : ascii) (s : string) :
  Str.contains sep s = false -> Str.rsplit1 sep s = [s].
Proof.
  induction s as [|a s IH]; cbn [Str.contains Str.rsplit1]; [reflexivity|].
  intros H. apply orb_false_elim in H. destruct H as [Ha Hs].
  rewrite (IH Hs), Ha. reflexivity.
Qed.

Lemma rsplit1_joined (sep : ascii) (n m : string) :
  Str.contains sep m = false ->
  Str.rsplit1 sep (n ++ String sep m) = [n; m].
Proof.
  intros H. induction n as [|a n IH]; cbn [append Str.rsplit1].
  - rewrite (rsplit1_no_sep _ _ H), Ascii.eqb_refl. reflexivity.
  - rewrite IH. reflexivity.
Qed.

Lemma contains_joined (sep : ascii) (n m : string) :
  Str.contains sep (n ++ String sep m) = true.
Proof.
  induction n as [|a n IH]; cbn [append Str.contains].
  - rewrite Ascii.eqb_refl. reflexivity.
  - rewrite IH. apply orb_true_r.
Qed.

(** A name joined to a marketplace without [@] parses back to the two. *)
Lemma parse_plugin_key_joined (n m : string) :
  Str.contains "@" m = false ->
  _parse_plugin_key (n ++ "@" ++ m) = (n, m).
Proof.
  intros H. unfold _parse_plugin_key. cbn [append].
  rewrite contains_joined, (rsplit1_joined _ _ _ H). reflexivity.
Qed.

Lemma installed_tuples_NoDup (self : DependencyChecker) :
  NoDup (map tuple_key (installed_tuples self)).
Proof.
  unfold installed_tuples.
  apply NoDup_flat_map_tagged with (owner := fun k => k) (tag := fst).
  - apply dict_keys_NoDup.
  - intros [k [|i0 rest]] _; [constructor|].
    destruct (_parse_plugin_key k). cbn. constructor; [intros [] | constructor].
  - intros [k [|i0 rest]] b _ Hb; [destruct Hb|].
    destruct (_parse_plugin_key k). destruct Hb as [<-|[]]. reflexivity.
Qed.

Lemma installed_tuples_keys (self : DependencyChecker) (k : string) :
  In k (map tuple_key (installed_tuples self)) -> In k (installed_keys self).
Proof.
  unfold installed_tuples, installed_keys. intros H.
  apply in_map_iff in H. destruct H as (t & <- & Ht).
  apply in_flat_map in Ht. destruct Ht as ([key [|i0 rest]] & Hin & Ht);
    [destruct Ht|].
  destruct (_parse_plugin_key key). destruct Ht as [<-|[]].
  apply in_flat_map. exists (key, i0 :: rest). split; [exact Hin|].
  left. reflexivity.
Qed.

Lemma enabled_tuples_NoDup (self : DependencyChecker) :
  NoDup (map tuple_key (enabled_tuples self)).
Proof.
  unfold enabled_tuples.
  apply NoDup_flat_map_tagged with (owner := fun k => k) (tag := fst).
  - apply dict_keys_NoDup.
  - intros [k [|]] _; [|constructor].
    destruct (_parse_plugin_key k) as [n m].
    destruct (_get_installed_plugin_info self n (Some m)) as [info|];
      [|constructor].
    destruct (Dict.truthy info); [|constructor].
    cbn. constructor; [intros [] | constructor].
  - intros [k [|]] b _ Hb; [|destruct Hb].
    destruct (_parse_plugin_key k) as [n m].
    destruct (_get_installed_plugin_info self n (Some m)) as [info|];
      [|destruct Hb].
    destruct (Dict.truthy info); [|destruct Hb].
    destruct Hb as [<-|[]]. reflexivity.
Qed.

(** What the scan of one marketplace contributes: keys [name@marketplace]
    of entries of its [plugins] directory that are not installed keys. *)
Lemma marketplace_tuples_keys (w : World) (self : DependencyChecker)
    (mkt_name : string) (mkt_info : record) (t : plugin_tuple) :
  In t (marketplace_tuples w self mkt_name mkt_info) ->
  (exists d, tuple_key t = path_name w d ++ "@" ++ mkt_name)
  /\ ~ In (tuple_key t) (installed_keys self).
Proof.
  unfold marketplace_tuples. intros H.
  destruct (negb (Str.truthy (Dict.get_default mkt_info "installLocation" "")));
    [destruct H|].
  destruct (negb (path_exists w
                    (Path w (Dict.get_default mkt_info "installLocation" ""))));
    [destruct H|].
  destruct (path_exists w
              (joinpath w
                 (Path w (Dict.get_default mkt_info "installLocation" ""))
                 "plugins")); [|destruct H].
  apply in_flat_map in H. destruct H as (d & _ & H).
  destruct (is_dir w d); [|destruct H].
  destruct (path_exists w (joinpath w d ".claude-plugin")); [|destruct H].
  destruct (existsb (String.eqb (path_name w d ++ "@" ++ mkt_name))
              (installed_keys self)) eqn:E; cbn [negb] in H; [destruct H|].
  destruct H as [<-|[]]. cbn [tuple_key fst]. split; [exists d; reflexivity|].
  intros Hin. apply existsb_eqb_In in Hin. congruence.
Qed.

Lemma marketplace_tuples_NoDup (w : World) (self : DependencyChecker)
    (mkt_name : string) (mkt_info : record) :
  (forall p, NoDup (map (path_name w) (iterdir w p))) ->
  Str.contains "@" mkt_name = false ->
  NoDup (map tuple_key (marketplace_tuples w self mkt_name mkt_info)).
Proof.
  intros Hdir Hm. unfold marketplace_tuples.
  destruct (negb (Str.truthy (Dict.get_default mkt_info "installLocation" "")));
    [constructor|].
  destruct (negb (path_exists w
                    (Path w (Dict.get_default mkt_info "installLocation" ""))));
    [constructor|].
  destruct (path_exists w
              (joinpath w
                 (Path w (Dict.get_default mkt_info "installLocation" ""))
                 "plugins")); [|constructor].
  apply NoDup_flat_map_tagged
    with (owner := fun k => fst (_parse_plugin_key k)) (tag := path_name w).
  - apply Hdir.
  - intros d _.
    destruct (is_dir w d); [|constructor].
    destruct (path_exists w (joinpath w d ".claude-plugin")); [|constructor].
    destruct (negb (existsb (String.eqb (path_name w d ++ "@" ++ mkt_name))
                      (installed_keys self))); [|constructor].
    cbn. constructor; [intros [] | constructor].
  - intros d b _ Hb.
    destruct (is_dir w d); [|destruct Hb].
    destruct (path_exists w (joinpath w d ".claude-plugin")); [|destruct Hb].
    destruct (negb (existsb (String.eqb (path_name w d ++ "@" ++ mkt_name))
                      (installed_keys self))); [|destruct Hb].
    destruct Hb as [<-|[]]. cbn [tuple_key fst].
    rewrite (parse_plugin_key_joined _ _ Hm). reflexivity.
Qed.

Lemma short_list_NoDup {A B} (f : A -> B) (l : list A) :
  (List.length l <= 1)%nat -> NoDup (map f l).
Proof.
  destruct l as [|a [|b l]]; cbn; intros H.
  - constructor.
  - constructor; [intros [] | constructor].
  - lia.
Qed.

Lemma specific_tuples_length (w : World) (self : DependencyChecker)
    (scope : Scope) (specific : string) :
  Str.truthy specific = true ->
  (List.length (_get_plugins_to_check w self scope (Some specific)) <= 1)%nat.
Proof.
  intros T. unfold _get_plugins_to_check. cbn [opt_truthy str_or_empty].
  rewrite T. destruct (_parse_plugin_key specific) as [name mkt].
  destruct (Str.truthy mkt); [|apply first_named_tuple_length].
  destruct (_get_installed_plugin_info self name (Some mkt)) as [info|];
    [|cbn; lia].
  destruct (Dict.truthy info); cbn; lia.
Qed.

Lemma all_tuples_NoDup (w : World) (self : DependencyChecker) :
  (forall p, NoDup (map (path_name w) (iterdir w p))) ->
  (forall m, In m (Dict.keys (known_marketplaces self)) ->
             Str.contains "@" m = false) ->
  NoDup (map tuple_key
           (installed_tuples self
            ++ flat_map (fun '(mkt_name, mkt_info) =>
                           marketplace_tuples w self mkt_name mkt_info)
                 (Dict.items (known_marketplaces self)))%list).
Proof.
  intros Hdir Hm. rewrite map_app. apply NoDup_app.
  - apply installed_tuples_NoDup.
  - apply NoDup_flat_map_tagged
      with (owner := fun k => snd (_parse_plugin_key k)) (tag := fst).
    + apply dict_keys_NoDup.
    + intros [m info] Hin. apply marketplace_tuples_NoDup; [exact Hdir|].
      apply Hm. unfold Dict.keys. apply in_map_iff.
      exists (m, info). split; [reflexivity | exact Hin].
    + intros [m info] b Hin Hb.
      destruct (marketplace_tuples_keys _ _ _ _ _ Hb) as [[d ->] _].
      rewrite parse_plugin_key_joined; [reflexivity|].
      apply Hm. unfold Dict.keys. apply in_map_iff.
      exists (m, info). split; [reflexivity | exact Hin].
  - intros k Hk1 Hk2. apply installed_tuples_keys in Hk1.
    apply in_map_iff in Hk2. destruct Hk2 as (t & <- & Ht).
    apply in_flat_map in Ht. destruct Ht as ([m info] & _ & Ht).
    destruct (marketplace_tuples_keys _ _ _ _ _ Ht) as [_ Hno].
    contradiction.
Qed.

(** C8, amended.  The enumerator's list has no plugin key twice: for the
    scopes enabled and installed and for a specific plugin always, for the
    scope all when no known marketplace name contains [@] (a directory
    listing names each entry once). *)
Theorem enumerated_keys_distinct (w : World) (self : DependencyChecker) :
  (forall scope specific,
      scope <> ScopeAll \/ opt_truthy specific = true ->
      NoDup (map tuple_key (_get_plugins_to_check w self scope specific)))
  /\ ((forall p, NoDup (map (path_name w) (iterdir w p))) ->
      (forall m, In m (Dict.keys (known_marketplaces self)) ->
                 Str.contains "@" m = false) ->
      forall scope specific,
        NoDup (map tuple_key (_get_plugins_to_check w self scope specific))).
Proof.
  assert (Hspec : forall scope specific,
             opt_truthy specific = true ->
             NoDup (map tuple_key
                      (_get_plugins_to_check w self scope specific))).
  { intros scope [s|] T; [|discriminate].
    apply short_list_NoDup, specific_tuples_length. exact T. }
  assert (Hrest : forall scope,
             scope <> ScopeAll ->
             NoDup (map tuple_key (_get_plugins_to_check w self scope None))).
  { intros [| |] H; unfold _get_plugins_to_check; cbn [opt_truthy].
    - apply enabled_tuples_NoDup.
    - apply installed_tuples_NoDup.
    - contradiction. }
  split.
  - intros scope specific H.
    destruct (opt_truthy specific) eqn:T; [apply Hspec; exact T|].
    destruct H as [H|H]; [|discriminate].
    unfold _get_plugins_to_check. rewrite T.
    destruct scope; [apply enabled_tuples_NoDup | apply installed_tuples_NoDup
                    | contradiction].
  - intros Hdir Hm scope specific.
    destruct (opt_truthy specific) eqn:T; [apply Hspec; exact T|].
    unfold _get_plugins_to_check. rewrite T.
    destruct scope; [apply enabled_tuples_NoDup | apply installed_tuples_NoDup
                    | apply all_tuples_NoDup; assumption].
Qed.

(** C8 as stated fails: in scope all the two directories give the same
    plugin key. *)
Lemma all_scope_repeats_key :
  _get_plugins_to_check clash_world clash_checker ScopeAll None
  = [("x@y@z", "/m1/plugins/x@y", "z"); ("x@y@z", "/m2/plugins/x", "y@z")]
  /\ ~ NoDup (map tuple_key
                (_get_plugins_to_check clash_world clash_checker ScopeAll None)).
Proof.
  assert (E : _get_plugins_to_check clash_world clash_checker ScopeAll None
              = [("x@y@z", "/m1/plugins/x@y", "z");
                 ("x@y@z", "/m2/plugins/x", "y@z")])
    by (vm_compute; reflexivity).
  split; [exact E|]. rewrite E. cbn. intros H.
  inversion H as [|k l Hnotin _]; subst. apply Hnotin. left. reflexivity.
Qed.

Lemma lookup_In {V} (k : string) (l : list (string * V)) (v : V) :
  Dict.lookup k l = Some v -> In (k, v) l.
Proof.
  induction l as [|[k' v'] l IH]; cbn [Dict.lookup]; [discriminate|].
  destruct (String.eqb_spec k' k) as [E|E]; intros H.
  - inversion H; subst. left. reflexivity.
  - right. apply IH. exact H.
Qed.

Lemma sample_world_listing (dirs : list (string * list string))
    (commands : list string) (banner : string) :
  (forall d names, In (d, names) dirs ->
                   NoDup names
                   /\ forall n, In n names -> Str.contains "/" n = false) ->
  forall p : string,
    NoDup (map (path_name (sample_world dirs commands banner))
             (iterdir (sample_world dirs commands banner) p)).
Proof.
  intros H p. cbn [path_name iterdir sample_world].
  destruct (Dict.lookup p dirs) as [names|] eqn:L; [|constructor].
  destruct (H _ _ (lookup_In _ _ _ L)) as [Hnd Hslash].
  rewrite map_map.
  rewrite (map_ext_in _ (fun n => n)).
  - rewrite map_id. exact Hnd.
  - intros n Hn. unfold basename. cbn [append].
    rewrite (rsplit1_joined "/" p n (Hslash n Hn)). reflexivity.
Qed.

Lemma enumerated_keys_distinct_witness :
  NoDup (map tuple_key
           (_get_plugins_to_check tidy_world tidy_checker ScopeAll None)).
Proof.
  apply (proj2 (enumerated_keys_distinct tidy_world tidy_checker)).
  - apply sample_world_listing.
    intros d names [E|[]]. inversion E; subst. split.
    + constructor; [intros [E'|[]]; discriminate|].
      constructor; [intros [] | constructor].
    + intros n [<-|[<-|[]]]; reflexivity.
  - intros m [<-|[]]. reflexivity.
Defined.

Example tidy_all_scope :
  _get_plugins_to_check tidy_world tidy_checker ScopeAll None
  = [("a@mk", "/i/a", "mk"); ("b@mk", "/mk/plugins/b", "mk")].
Proof. vm_compute. reflexivity. Qed.

(** ** The run never raises *)







(** ** Exit status *)




(** * Further properties of the constraint engine *)

(** ** Heads of strings *)

Lemma lstrip_by_head (p : ascii -> bool) (s : string) (c : ascii) (t : string) :
  Str.lstrip_by p s = String c t -> p c = false.
Proof.
  induction s as [|a s IH]; cbn [Str.lstrip_by]; [discriminate|].
  destruct (p a) eqn:E; [exact IH|].
  intros H. inversion H; subst. exact E.
Qed.

Lemma semver_needs_digit (c : ascii) (t : string) :
  Str.is_digit c = false -> Re.rmatch semver_pattern (String c t) = None.
Proof.
  intros H. unfold Re.rmatch, semver_pattern.
  cbn [Re.seq Re.run Nat.eqb Re.plus_from]. rewrite H. reflexivity.
Qed.

Lemma parse_clean_needs_digit (c : ascii) (t : string) :
  Str.is_digit c = false -> VersionM.parse_clean (String c t) = Ok None.
Proof.
  intros H. unfold VersionM.parse_clean.
  rewrite (semver_needs_digit _ _ H).
  destruct (Re.rmatch sha_pattern (String c t)); reflexivity.
Qed.

(** A string that parses has, once stripped, a digit or a [v] in front. *)
Lemma parse_some_head (s : string) (r : Version) :
  VersionM.parse s = Ok (Some r) ->
  exists c t, Str.strip s = String c t
              /\ (c = "v"%char \/ Str.is_digit c = true).
Proof.
  unfold VersionM.parse. destruct (Str.truthy s); cbn [negb]; [|discriminate].
  destruct (Str.strip s) as [|c t] eqn:S; [discriminate|].
  intros H. exists c, t. split; [reflexivity|].
  unfold Str.lstrip_v in H. cbn [Str.lstrip_by] in H.
  unfold Str.is_char in H.
  destruct (Ascii.eqb_spec "v" c) as [E|E]; [left; symmetry; exact E|].
  right. destruct (Str.is_digit c) eqn:D; [reflexivity|].
  rewrite (parse_clean_needs_digit _ _ D) in H. discriminate.
Qed.

Lemma rstrip_by_head (p : ascii -> bool) (c : ascii) (s : string) :
  p c = false ->
  Str.rstrip_by p (String c s) = String c (Str.rstrip_by p s).
Proof. intros H. cbn [Str.rstrip_by]. rewrite H. reflexivity. Qed.

(** The first character of a string that parses is white space, a digit
    or a [v]. *)
Lemma parse_some_first (c : ascii) (s : string) (r : Version) :
  VersionM.parse (String c s) = Ok (Some r) ->
  Str.is_space c = true \/ c = "v"%char \/ Str.is_digit c = true.
Proof.
  intros H. destruct (Str.is_space c) eqn:E; [left; reflexivity|]. right.
  destruct (parse_some_head _ _ H) as (c' & t & S & Hc).
  rewrite (strip_cons _ _ E) in S. inversion S; subst. exact Hc.
Qed.

Lemma prefix_head_neq (a c : ascii) (p t : string) :
  a <> c -> String.prefix (String a p) (String c t) = false.
Proof.
  intros H. cbn [String.prefix].
  destruct (ascii_dec a c) as [E|E]; [contradiction | reflexivity].
Qed.

Lemma head_not_operator (c : ascii) :
  c = "v"%char \/ Str.is_digit c = true ->
  c <> "*"%char /\ c <> ">"%char /\ c <> "<"%char /\ c <> "^"%char
  /\ c <> "~"%char /\ c <> "="%char.
Proof.
  intros H. repeat split; intros ->;
    (destruct H as [H|H]; [discriminate | vm_compute in H; discriminate]).
Qed.

Lemma eqb_head_neq (a c : ascii) (p t : string) :
  c <> a -> String.eqb (String c t) (String a p) = false.
Proof.
  intros H. cbn [String.eqb].
  destruct (Ascii.eqb_spec c a) as [E|E]; [contradiction | reflexivity].
Qed.

(** ** How a constraint is cut *)

Lemma rstrip_by_cases (p : ascii -> bool) (s : string) :
  Str.rstrip_by p s = ""
  \/ exists c s' t, s = String c s' /\ Str.rstrip_by p s = String c t.
Proof.
  destruct s as [|c s]; [left; reflexivity|]. cbn [Str.rstrip_by].
  destruct (p c && negb (Str.truthy (Str.rstrip_by p s)))%bool;
    [left; reflexivity|].
  right. exists c, s, (Str.rstrip_by p s). auto.
Qed.

Lemma constraint_two_chars (a : ascii) (rs : string) :
  a = ">"%char \/ a = "<"%char ->
  parse_version_constraint (String a (String "=" rs))
  = (String a "=", Str.strip rs).
Proof.
  intros H. unfold parse_version_constraint.
  rewrite strip_cons by (destruct H; subst; reflexivity).
  rewrite rstrip_by_head by reflexivity.
  rewrite <- (strip_rstrip rs).
  generalize (Str.rstrip_by Str.is_space rs) as r. intros r.
  unfold Str.startswith.
  destruct H; subst; cbn; rewrite prefix_empty; reflexivity.
Qed.

Lemma constraint_one_char (a : ascii) (rs : string) :
  a = "^"%char \/ a = "~"%char \/ a = "="%char
  \/ ((a = ">"%char \/ a = "<"%char) /\ forall t, rs <> String "=" t) ->
  parse_version_constraint (String a rs) = (String a "", Str.strip rs).
Proof.
  intros H. unfold parse_version_constraint.
  rewrite strip_cons
    by (destruct H as [->|[->|[->|[[-> | ->] _]]]]; reflexivity).
  rewrite <- (strip_rstrip rs).
  assert (Hhead : forall a', (a = ">"%char \/ a = "<"%char) ->
            String.prefix (String a' "=")
              (String a (Str.rstrip_by Str.is_space rs))
            = false \/ a' <> a).
  { intros a' Ha. destruct (ascii_dec a' a) as [E|E]; [|right; exact E].
    left. cbn [String.prefix]. rewrite E.
    destruct (ascii_dec a a) as [_|N]; [|contradiction].
    destruct H as [->|[->|[->|[_ Hrs]]]];
      try (destruct Ha; discriminate).
    destruct (rstrip_by_cases Str.is_space rs) as [->|(c & s' & t & E1 & ->)];
      [reflexivity|].
    cbn [String.prefix].
    destruct (ascii_dec "=" c) as [<-|N]; [|reflexivity].
    exfalso. apply (Hrs s'). exact E1. }
  generalize dependent (Str.rstrip_by Str.is_space rs). intros r Hhead.
  unfold Str.startswith.
  destruct H as [->|[->|[->|[[-> | ->] _]]]].
  - cbn. rewrite prefix_empty. reflexivity.
  - cbn. rewrite prefix_empty. reflexivity.
  - cbn. rewrite prefix_empty. reflexivity.
  - destruct (Hhead ">"%char (or_introl eq_refl)) as [E|E];
      [|contradiction].
    cbn [String.eqb Ascii.eqb Bool.eqb andb]. rewrite E.
    cbn. rewrite prefix_empty. reflexivity.
  - destruct (Hhead "<"%char (or_intror eq_refl)) as [E|E];
      [|contradiction].
    cbn [String.eqb Ascii.eqb Bool.eqb andb].
    rewrite (prefix_head_neq ">" "<") by discriminate. rewrite E.
    cbn. rewrite prefix_empty. reflexivity.
Qed.

Lemma constraint_bare (s : string) (c : ascii) (t : string) :
  Str.strip s = String c t ->
  c = "v"%char \/ Str.is_digit c = true ->
  parse_version_constraint s = ("=", Str.strip s).
Proof.
  intros S H. destruct (head_not_operator c H) as (N1 & N2 & N3 & N4 & N5 & N6).
  unfold parse_version_constraint. rewrite S.
  rewrite (eqb_head_neq "*" c "" t N1). unfold Str.startswith.
  rewrite !prefix_head_neq by congruence. reflexivity.
Qed.

(** ** The operators *)

Lemma parse_not_star (r : Version) (s : string) :
  VersionM.parse s = Ok (Some r) -> String.eqb s "*" = false.
Proof.
  intros H. destruct (String.eqb_spec s "*") as [->|]; [|reflexivity].
  vm_compute in H. discriminate.
Qed.

Lemma rs_not_equals (rs : string) (r : Version) :
  VersionM.parse rs = Ok (Some r) -> forall t, rs <> String "=" t.
Proof.
  intros H t ->. apply parse_some_first in H.
  destruct H as [H|[H|H]]; [vm_compute in H | | vm_compute in H]; discriminate.
Qed.

(** X1. With both strings parsed, each comparison operator in front of the
    required version evaluates the comparison of that name on the parsed
    versions; the two-character operators win over their first character,
    and a constraint without operator asks for equality. *)
Theorem comparison_constraints (vs rs : string) (v r : Version) :
  VersionM.parse vs = Ok (Some v) ->
  VersionM.parse rs = Ok (Some r) ->
  version_satisfies vs (">=" ++ rs) = Ok (VersionM.ge v r)
  /\ version_satisfies vs ("<=" ++ rs) = Ok (VersionM.le v r)
  /\ version_satisfies vs (">" ++ rs) = Ok (VersionM.gt v r)
  /\ version_satisfies vs ("<" ++ rs) = Ok (VersionM.lt v r)
  /\ version_satisfies vs ("=" ++ rs) = Ok (VersionM.eq v r)
  /\ version_satisfies vs rs = Ok (VersionM.eq v r).
Proof.
  intros Hv Hr. pose proof (rs_not_equals _ _ Hr) as Hne.
  unfold version_satisfies. cbn [append].
  rewrite !constraint_two_chars by auto.
  rewrite !constraint_one_char by auto 6.
  destruct (parse_some_head _ _ Hr) as (c & t & S & Hc).
  rewrite (constraint_bare _ _ _ S Hc).
  rewrite (parse_not_star _ _ Hr).
  cbn [String.eqb Ascii.eqb Bool.eqb andb].
  rewrite Hv, parse_strip, Hr. cbn [bind].
  repeat split; reflexivity.
Qed.

Lemma comparison_constraints_witness :
  version_satisfies "1.5.0" (">=" ++ " 2.0.0")
  = Ok (VersionM.ge (mkVersion 1 5 0 "" "") (mkVersion 2 0 0 "" ""))
  /\ version_satisfies "1.0.0+a" "v1.0.0+b"
     = Ok (VersionM.eq (mkVersion 1 0 0 "" "a") (mkVersion 1 0 0 "" "b")).
Proof.
  split.
  - apply (proj1 (comparison_constraints "1.5.0" " 2.0.0" _ _ eq_refl eq_refl)).
  - apply (proj2 (proj2 (proj2 (proj2 (proj2
             (comparison_constraints "1.0.0+a" "v1.0.0+b" _ _
                eq_refl eq_refl)))))).
Defined.

(** X2. With both strings parsed, the tilde constraint holds exactly when
    the installed version is not below the required one and has its major
    and minor numbers; the patch number may be higher. *)
Theorem tilde_fixes_major_minor (vs rs : string) (v r : Version) :
  VersionM.parse vs = Ok (Some v) ->
  VersionM.parse rs = Ok (Some r) ->
  exists b,
    version_satisfies vs ("~" ++ rs) = Ok b
    /\ (b = true <->
        VersionM.lt v r = false
        /\ major v = major r /\ minor v = minor r).
Proof.
  intros Hv Hr. unfold version_satisfies. cbn [append].
  rewrite constraint_one_char by auto.
  cbn [String.eqb Ascii.eqb Bool.eqb andb].
  rewrite Hv, parse_strip, Hr. cbn [bind].
  destruct (VersionM.lt v r); eexists; (split; [reflexivity|]).
  - split; [discriminate | intros [H _]; discriminate].
  - rewrite andb_true_iff, !Z.eqb_eq. tauto.
Qed.

Lemma tilde_fixes_major_minor_witness :
  exists b,
    version_satisfies "1.2.9" ("~" ++ "1.2.3") = Ok b
    /\ (b = true <->
        VersionM.lt (mkVersion 1 2 9 "" "") (mkVersion 1 2 3 "" "") = false
        /\ 1 = 1 /\ 2 = 2).
Proof.
  apply (tilde_fixes_major_minor "1.2.9" "1.2.3" (mkVersion 1 2 9 "" "")
           (mkVersion 1 2 3 "" "") eq_refl eq_refl).
Defined.




(** ** What a parsed version looks like *)

Lemma semver_groups_ident (s : string) (m : Re.captures) :
  Re.rmatch semver_pattern s = Some m ->
  all_chars ident_char (str_or_empty (Re.group m 4)) = true
  /\ all_chars ident_char (str_or_empty (Re.group m 5)) = true.
Proof.
  intros H. apply rmatch_sound in H. destruct H as [s' H].
  unfold semver_pattern in H. cbn [sem Re.seq] in H.
  break_sem; subst; rewrite ?consumed_app;
    cbn [Re.group Nat.eqb str_or_empty all_chars]; auto.
Qed.

(** X4. A version that [parse] returns has non-negative numbers, and its
    prerelease and build parts consist of letters, digits, dots and
    hyphens. *)
Theorem parse_result_wellformed (s : string) (v : Version) :
  VersionM.parse s = Ok (Some v) ->
  0 <= major v /\ 0 <= minor v /\ 0 <= patch v
  /\ all_chars ident_char (prerelease v) = true
  /\ all_chars ident_char (build v) = true.
Proof.
  unfold VersionM.parse. destruct (negb (Str.truthy s)); [discriminate|].
  generalize (Str.lstrip_v (Str.strip s)) as t. intros t.
  unfold VersionM.parse_clean.
  destruct (Re.rmatch sha_pattern t); [discriminate|].
  destruct (Re.rmatch semver_pattern t) as [m|] eqn:M; [|discriminate].
  destruct (semver_groups _ _ M) as ((x & G1 & D1) & G2 & G3).
  destruct (semver_groups_ident _ _ M) as [I4 I5].
  rewrite G1. cbn [str_or_empty].
  destruct (int_ok _ D1) as (z1 & -> & P1).
  destruct (int_or_0_ok _ G2) as (z2 & -> & P2).
  destruct (int_or_0_ok _ G3) as (z3 & -> & P3).
  cbn [bind]. intros H. inversion H; subst. cbn. auto.
Qed.

Lemma parse_result_wellformed_witness :
  0 <= 1 /\ 0 <= 2 /\ 0 <= 0
  /\ all_chars ident_char "rc.1" = true /\ all_chars ident_char "" = true.
Proof.
  apply (parse_result_wellformed " v1.2-rc.1" (mkVersion 1 2 0 "rc.1" "")).
  vm_compute. reflexivity.
Defined.

(** ** Commit hashes *)

Lemma no_space_strip (s : string) :
  all_chars (fun c => negb (Str.is_space c)) s = true -> Str.strip s = s.
Proof.
  intros H. unfold Str.strip.
  assert (R : Str.rstrip_by Str.is_space s = s).
  { induction s as [|c s IH]; [reflexivity|].
    cbn [all_chars] in H. apply andb_prop in H. destruct H as [Hc Hs].
    apply negb_true_iff in Hc. rewrite rstrip_by_head by exact Hc.
    rewrite IH by exact Hs. reflexivity. }
  rewrite R. destruct s as [|c s]; [reflexivity|].
  cbn [all_chars] in H. apply andb_prop in H. destruct H as [Hc _].
  apply negb_true_iff in Hc. cbn [Str.lstrip_by]. rewrite Hc. reflexivity.
Qed.

Lemma all_chars_weaken (p q : ascii -> bool) (s : string) :
  (forall c, p c = true -> q c = true) ->
  all_chars p s = true -> all_chars q s = true.
Proof.
  intros Hpq. induction s as [|c s IH]; cbn [all_chars]; [reflexivity|].
  intros H. apply andb_prop in H. destruct H as [Hc Hs].
  rewrite (Hpq _ Hc), (IH Hs). reflexivity.
Qed.

Lemma hex_digit_codes (c : ascii) :
  hex_digit c = true ->
  (48 <= Str.code c <= 57)%N \/ (97 <= Str.code c <= 102)%N.
Proof.
  unfold hex_digit, Str.is_digit, Str.between.
  rewrite orb_true_iff, !andb_true_iff, !N.leb_le. tauto.
Qed.

Lemma hex_digit_not_space (c : ascii) :
  hex_digit c = true -> negb (Str.is_space c) = true.
Proof.
  intros H. apply hex_digit_codes in H. apply negb_true_iff.
  unfold Str.is_space, Str.between.
  rewrite !orb_false_iff, !andb_false_iff, !N.leb_gt, !N.eqb_neq. lia.
Qed.

Lemma hex_digit_not_v (c : ascii) :
  hex_digit c = true -> Str.is_char "v" c = false.
Proof.
  intros H. apply hex_digit_codes in H. unfold Str.is_char.
  destruct (Ascii.eqb_spec "v" c) as [<-|]; [|reflexivity].
  assert (E : Str.code "v" = 118%N) by reflexivity.
  rewrite E in H. lia.
Qed.

(** X5. Every string of twelve characters among [0-9a-f] is refused by
    [parse], also when it consists of twelve decimal digits. *)
Theorem parse_rejects_commit_hash (s : string) :
  String.length s = 12%nat ->
  all_chars hex_digit s = true ->
  VersionM.parse s = Ok None.
Proof.
  intros L H.
  assert (S : Str.strip s = s)
    by (apply no_space_strip;
        apply (all_chars_weaken hex_digit); [apply hex_digit_not_space | exact H]).
  unfold VersionM.parse. rewrite S.
  do 12 (destruct s as [|? s]; [discriminate|]).
  destruct s; [|discriminate]. clear L S.
  cbn [all_chars] in H.
  repeat match goal with
         | H : (_ && _)%bool = true |- _ =>
             apply andb_prop in H; destruct H
         end.
  cbn [Str.truthy negb]. unfold Str.lstrip_v. cbn [Str.lstrip_by].
  rewrite hex_digit_not_v by assumption.
  unfold VersionM.parse_clean, Re.rmatch, sha_pattern.
  cbn [Re.rep app Re.seq Re.run Nat.eqb].
  repeat match goal with
         | H : hex_digit _ = true |- _ => rewrite H; clear H
         end.
  reflexivity.
Qed.

Lemma parse_rejects_commit_hash_witness :
  VersionM.parse "0123456789ab" = Ok None.
Proof.
  apply parse_rejects_commit_hash; reflexivity.
Defined.

(** * Further properties of the registry and the run *)

(** ** Plugin keys *)

Lemma rsplit1_two (sep : ascii) (s : string) :
  Str.contains sep s = true ->
  exists h t, Str.rsplit1 sep s = [h; t] /\ Str.contains sep t = false.
Proof.
  induction s as [|a s IH]; cbn [Str.contains Str.rsplit1]; [discriminate|].
  intros H. destruct (Str.contains sep s) eqn:C.
  - destruct (IH eq_refl) as (h & t & -> & Ht). exists (String a h), t. auto.
  - rewrite orb_false_r in H. rewrite (rsplit1_no_sep _ _ C), H.
    exists "", s. auto.
Qed.

(** X6. A plugin key is cut at its last [@]: joining a name and a
    marketplace without [@] and parsing the key gives the two back; a key
    with an [@] is the join of its two parts, and its marketplace part has
    no [@]; a key without [@] is a name with the empty marketplace. *)
Theorem plugin_key_roundtrip :
  (forall name mkt,
      Str.contains "@" mkt = false ->
      _parse_plugin_key (_get_plugin_key name mkt) = (name, mkt))
  /\ (forall key,
        Str.contains "@" key = true ->
        _get_plugin_key (fst (_parse_plugin_key key))
          (snd (_parse_plugin_key key)) = key
        /\ Str.contains "@" (snd (_parse_plugin_key key)) = false)
  /\ (forall key,
        Str.contains "@" key = false -> _parse_plugin_key key = (key, "")).
Proof.
  split; [|split].
  - intros name mkt H. apply parse_plugin_key_joined. exact H.
  - intros key H. unfold _parse_plugin_key, _get_plugin_key. rewrite H.
    destruct (rsplit1_two _ _ H) as (h & t & R & C). rewrite R. cbn [fst snd].
    split; [|exact C]. symmetry. apply rsplit1_join. exact R.
  - intros key H. unfold _parse_plugin_key. rewrite H. reflexivity.
Qed.

Lemma plugin_key_roundtrip_witness :
  _parse_plugin_key (_get_plugin_key "@scope/tool" "market") = ("@scope/tool", "market")
  /\ _get_plugin_key (fst (_parse_plugin_key "a@b@c"))
       (snd (_parse_plugin_key "a@b@c")) = "a@b@c".
Proof.
  split.
  - apply (proj1 plugin_key_roundtrip). reflexivity.
  - apply (proj1 (proj2 plugin_key_roundtrip)). reflexivity.
Defined.

(** ** What a run reports *)









(** ** What the scopes enumerate *)





(** * Printing and parsing a version *)

(** ** Decimal numerals *)





(** ** The greedy path of the matcher *)





Lemma append_assoc (a b c : string) : (a ++ b) ++ c = a ++ b ++ c.
Proof. induction a; cbn [append]; congruence. Qed.



(** ** Reading a version text *)











(** ** Round trip *)










(** * The system probe *)








(** * The result document and the resolution steps *)

Lemma get_valid (d : DependencyResult) (default : scalar) :
  Steps.get (result_to_dict d) "valid" default = SBool (valid d).
Proof.
  unfold result_to_dict.
  destruct (plugin d), (command d), (marketplace d); reflexivity.
Qed.

Lemma get_help (d : DependencyResult) (default : scalar) :
  Steps.get (result_to_dict d) "help" default = SStr (help d).
Proof.
  unfold result_to_dict.
  destruct (plugin d), (command d), (marketplace d); reflexivity.
Qed.

Lemma get_installed (d : DependencyResult) (default : scalar) :
  Steps.get (result_to_dict d) "installed" default = SBool (installed d).
Proof.
  unfold result_to_dict.
  destruct (plugin d), (command d), (marketplace d); reflexivity.
Qed.

Lemma get_enabled (d : DependencyResult) (default : scalar) :
  Steps.get (result_to_dict d) "enabled" default = SBool (enabled d).
Proof.
  unfold result_to_dict.
  destruct (plugin d), (command d), (marketplace d); reflexivity.
Qed.

Lemma custom_help_str (s : string) (prefixes : list string) :
  Steps.custom_help (SStr s) prefixes
  = Steps.Done (Str.truthy s && negb (existsb (Str.startswith s) prefixes))%bool.
Proof.
  unfold Steps.custom_help. cbn [Steps.truthy].
  destruct (Str.truthy s); reflexivity.
Qed.

(** On an entry written by [to_dict] the plugin resolution returns, with
    a step exactly for an invalid result. *)
Lemma plugin_step_of_result (d : DependencyResult) (is_optional : bool) :
  exists o,
    Steps.get_plugin_resolution (result_to_dict d) is_optional = Steps.Done o
    /\ (valid d = true -> o = None)
    /\ (valid d = false ->
        exists s, o = Some s
                  /\ Steps.dep_type s
                     = if is_optional then "Optional" else "Required").
Proof.
  unfold Steps.get_plugin_resolution.
  rewrite get_valid, get_help, get_installed, get_enabled.
  cbn [Steps.truthy]. destruct (valid d).
  - eexists. split; [reflexivity|]. split; [reflexivity | discriminate].
  - rewrite !custom_help_str. cbn [Steps.obind].
    destruct (installed d); cbn [negb Steps.obind].
    + destruct (enabled d); cbn [negb]; rewrite ?custom_help_str;
        cbn [Steps.obind]; eexists; (split; [reflexivity|]);
        (split; [discriminate|]); intros _; eexists; split; reflexivity.
    + rewrite ?custom_help_str. cbn [Steps.obind].
      eexists. split; [reflexivity|]. split; [discriminate|].
      intros _. eexists. split; reflexivity.
Qed.

Lemma system_step_of_result (d : DependencyResult) (is_optional : bool) :
  exists o,
    Steps.get_system_resolution (result_to_dict d) is_optional = Steps.Done o
    /\ (valid d = true -> o = None)
    /\ (valid d = false ->
        exists s, o = Some s
                  /\ Steps.dep_type s
                     = if is_optional then "Optional System"
                       else "Required System").
Proof.
  unfold Steps.get_system_resolution.
  rewrite get_valid, get_help, get_installed.
  cbn [Steps.truthy]. destruct (valid d).
  - eexists. split; [reflexivity|]. split; [reflexivity | discriminate].
  - rewrite !custom_help_str. cbn [Steps.obind].
    destruct (installed d); cbn [negb Steps.obind];
      rewrite ?custom_help_str; cbn [Steps.obind];
      eexists; (split; [reflexivity|]); (split; [discriminate|]);
      intros _; eexists; split; reflexivity.
Qed.

(** One loop over a bucket written by [to_dict]: it appends one step of
    the bucket's type for each invalid result. *)
Lemma collect_bucket
    (f : entry -> bool -> Steps.outcome (option Steps.ResolutionStep))
    (is_optional : bool) (ty : string) (ds : list DependencyResult) :
  (forall d,
      exists o,
        f (result_to_dict d) is_optional = Steps.Done o
        /\ (valid d = true -> o = None)
        /\ (valid d = false ->
            exists s, o = Some s /\ Steps.dep_type s = ty)) ->
  forall steps,
    exists new,
      Steps.collect f (map result_to_dict ds) is_optional steps
      = Steps.Done (steps ++ new)%list
      /\ map Steps.dep_type new = repeat ty (count_invalid ds).
Proof.
  intros Hf. unfold count_invalid.
  induction ds as [|d ds IH]; intros steps; cbn [map Steps.collect filter].
  - exists []. rewrite app_nil_r. split; reflexivity.
  - destruct (Hf d) as (o & -> & Hv & Hi). cbn [Steps.obind].
    destruct (valid d); cbn [negb].
    + rewrite (Hv eq_refl). apply IH.
    + destruct (Hi eq_refl) as (s & -> & Hs).
      destruct (IH (steps ++ [s])%list) as (new & -> & Hn).
      exists (s :: new). rewrite <- app_assoc. split; [reflexivity|].
      cbn [map List.length repeat]. rewrite Hs, Hn. reflexivity.
Qed.

Lemma filter_map_length {A B} (g : A -> B) (P : B -> bool) (l : list A) :
  List.length (filter (fun a => P (g a)) l)
  = List.length (filter P (map g l)).
Proof.
  induction l as [|a l IH]; cbn [filter map]; [reflexivity|].
  destruct (P (g a)); cbn [List.length]; congruence.
Qed.

Lemma filter_repeat_length {B} (P : B -> bool) (b : B) (n : nat) :
  List.length (filter P (repeat b n)) = if P b then n else 0%nat.
Proof.
  induction n as [|n IH]; cbn [repeat filter]; [destruct (P b); reflexivity|].
  destruct (P b) eqn:E; cbn [List.length]; rewrite IH; reflexivity.
Qed.

Lemma any_invalid_count (l : list DependencyResult) :
  any_invalid l = negb (Nat.eqb (count_invalid l) 0).
Proof.
  unfold any_invalid, count_invalid.
  induction l as [|d l IH]; cbn [existsb filter]; [reflexivity|].
  destruct (valid d); cbn [negb orb List.length]; [exact IH | reflexivity].
Qed.

(** X12. Fed the document of any result of the checker,
    [resolution-steps.py] does not fail, produces one step for each
    invalid result (required plugins first, then optional plugins,
    required system, optional system) and none for a valid one, and
    returns the exit status of the checker. *)
Theorem steps_agree_with_checker (r : CheckResult) :
  exists steps,
    Steps.generate_resolution_steps (check_result_to_dict r)
    = Steps.Done steps
    /\ map Steps.dep_type steps
       = (repeat "Required" (count_invalid (dependencies r))
          ++ repeat "Optional" (count_invalid (optional_dependencies r))
          ++ repeat "Required System" (count_invalid (system_dependencies r))
          ++ repeat "Optional System"
               (count_invalid (optional_system_dependencies r)))%list
    /\ Steps.main (check_result_to_dict r) = Steps.Done (exit_status r).
Proof.
  unfold Steps.main, Steps.generate_resolution_steps, check_result_to_dict.
  cbn [doc_dependencies doc_optional_dependencies doc_system_dependencies
       doc_optional_system_dependencies].
  destruct (collect_bucket Steps.get_plugin_resolution false "Required"
              (dependencies r)
              (fun d => plugin_step_of_result d false) [])
    as (n1 & -> & T1).
  cbn [Steps.obind app].
  destruct (collect_bucket Steps.get_plugin_resolution true "Optional"
              (optional_dependencies r)
              (fun d => plugin_step_of_result d true) n1)
    as (n2 & -> & T2).
  cbn [Steps.obind].
  destruct (collect_bucket Steps.get_system_resolution false "Required System"
              (system_dependencies r)
              (fun d => system_step_of_result d false) (n1 ++ n2)%list)
    as (n3 & -> & T3).
  cbn [Steps.obind].
  destruct (collect_bucket Steps.get_system_resolution true "Optional System"
              (optional_system_dependencies r)
              (fun d => system_step_of_result d true)
              ((n1 ++ n2) ++ n3)%list)
    as (n4 & -> & T4).
  cbn [Steps.obind].
  assert (Ty : map Steps.dep_type (((n1 ++ n2) ++ n3) ++ n4)%list
               = (repeat "Required" (count_invalid (dependencies r))
                  ++ repeat "Optional"
                       (count_invalid (optional_dependencies r))
                  ++ repeat "Required System"
                       (count_invalid (system_dependencies r))
                  ++ repeat "Optional System"
                       (count_invalid (optional_system_dependencies r)))%list).
  { rewrite !map_app, T1, T2, T3, T4, <- !app_assoc. reflexivity. }
  eexists. split; [reflexivity|]. split; [exact Ty|].
  f_equal. unfold Steps.exit_code, exit_status.
  rewrite (filter_map_length Steps.dep_type
             (fun t => (String.eqb t "Required"
                        || String.eqb t "Required System")%bool)).
  rewrite Ty, !filter_app, !length_app, !filter_repeat_length.
  cbn [String.eqb Ascii.eqb Bool.eqb andb orb].
  rewrite !any_invalid_count.
  destruct (count_invalid (dependencies r)),
    (count_invalid (system_dependencies r)); reflexivity.
Qed.





(** * The result document and the notes of the table *)










(** * The printed resolution steps *)

Lemma truthy_app_r (a b : string) :
  Str.truthy b = true -> Str.truthy (a ++ b) = true.
Proof. destruct a; [auto | reflexivity]. Qed.

(** Stripping on the right leaves what stands before a part that does not
    vanish. *)
Lemma rstrip_by_app_truthy (p : ascii -> bool) (a b : string) :
  Str.truthy (Str.rstrip_by p b) = true ->
  Str.rstrip_by p (a ++ b) = a ++ Str.rstrip_by p b.
Proof.
  intros H. induction a as [|c a IH]; [reflexivity|].
  cbn [append Str.rstrip_by]. rewrite IH, (truthy_app_r _ _ H).
  cbn [negb]. rewrite andb_false_r. reflexivity.
Qed.

Lemma join_cons2 (sep a b : string) (l : list string) :
  Str.join sep (a :: b :: l) = a ++ sep ++ Str.join sep (b :: l).
Proof. reflexivity. Qed.

(** The steps of a result document: as many as invalid results. *)
Lemma steps_of_result (r : CheckResult) :
  exists steps,
    Steps.generate_resolution_steps (check_result_to_dict r)
    = Steps.Done steps
    /\ List.length steps = total_invalid r.
Proof.
  unfold Steps.generate_resolution_steps, check_result_to_dict.
  cbn [doc_dependencies doc_optional_dependencies doc_system_dependencies
       doc_optional_system_dependencies].
  destruct (collect_bucket Steps.get_plugin_resolution false "Required"
              (dependencies r)
              (fun d => plugin_step_of_result d false) [])
    as (n1 & -> & T1).
  cbn [Steps.obind app].
  destruct (collect_bucket Steps.get_plugin_resolution true "Optional"
              (optional_dependencies r)
              (fun d => plugin_step_of_result d true) n1)
    as (n2 & -> & T2).
  cbn [Steps.obind].
  destruct (collect_bucket Steps.get_system_resolution false "Required System"
              (system_dependencies r)
              (fun d => system_step_of_result d false) (n1 ++ n2)%list)
    as (n3 & -> & T3).
  cbn [Steps.obind].
  destruct (collect_bucket Steps.get_system_resolution true "Optional System"
              (optional_system_dependencies r)
              (fun d => system_step_of_result d true)
              ((n1 ++ n2) ++ n3)%list)
    as (n4 & -> & T4).
  cbn [Steps.obind].
  eexists. split; [reflexivity|].
  apply (f_equal (@List.length string)) in T1, T2, T3, T4.
  rewrite length_map, repeat_length in T1, T2, T3, T4.
  rewrite !length_app, T1, T2, T3, T4. reflexivity.
Qed.

(** X17. What [resolution-steps.py] prints for the document of any result
    of the checker: the sentence "All dependencies satisfied." when no
    result of the four buckets is invalid, and otherwise a text that
    starts with the header "## Resolution Steps (n issue[s])", n being
    the number of invalid results, optional ones included, with "issue"
    in the singular for exactly one. *)
Theorem report_counts_invalid (r : CheckResult) :
  exists steps,
    Steps.generate_resolution_steps (check_result_to_dict r)
    = Steps.Done steps
    /\ (total_invalid r = 0%nat ->
        Steps.format_resolution_steps steps = "All dependencies satisfied.")
    /\ (total_invalid r <> 0%nat ->
        exists rest,
          Steps.format_resolution_steps steps
          = "## Resolution Steps ("
            ++ Str.of_int (Z.of_nat (total_invalid r)) ++ " issue"
            ++ (if Nat.eqb (total_invalid r) 1 then "" else "s") ++ ")"
            ++ rest).
Proof.
  destruct (steps_of_result r) as (steps & E & L).
  exists steps. split; [exact E|]. split.
  - intros H0. rewrite H0 in L. destruct steps; [reflexivity | discriminate L].
  - intros Hn. destruct steps as [|s0 st]; [cbn in L; congruence|].
    unfold Steps.format_resolution_steps. cbv zeta. rewrite L.
    generalize (Steps.step_lines 1 (s0 :: st)) as body.
    generalize (total_invalid r) as n. clear. intros n body.
    rewrite join_cons2.
    assert (S : (if negb (Z.of_nat n =? 1) then "s" else "")
                = if Nat.eqb n 1 then "" else "s").
    { destruct (Nat.eqb_spec n 1) as [->|D]; [reflexivity|].
      destruct (Z.eqb_spec (Z.of_nat n) 1) as [Q|_]; [lia | reflexivity]. }
    rewrite S.
    exists (Str.rstrip_by Str.is_space
              (Re.newline ++ Str.join Re.newline ("" :: body))).
    set (tail := Re.newline ++ Str.join Re.newline ("" :: body)).
    rewrite !append_assoc.
    change (")" ++ tail) with (String ")" tail).
    change (")" ++ Str.rstrip_by Str.is_space tail)
      with (String ")" (Str.rstrip_by Str.is_space tail)).
    rewrite <- (rstrip_by_head Str.is_space ")" tail) by reflexivity.
    rewrite <- !append_assoc.
    apply rstrip_by_app_truthy.
    rewrite rstrip_by_head by reflexivity. reflexivity.
Qed.

Lemma report_counts_invalid_witness :
  exists steps rest,
    Steps.generate_resolution_steps (check_result_to_dict outdated_bar_result)
    = Steps.Done steps
    /\ Steps.format_resolution_steps steps
       = "## Resolution Steps (1 issue)" ++ rest.
Proof.
  destruct (report_counts_invalid outdated_bar_result) as (steps & E & _ & H).
  destruct H as [rest R]; [vm_compute; discriminate|].
  exists steps, rest. split; [exact E | exact R].
Defined.
